(** * tpm_futurepcr: replay of the TPM event log into current and predicted PCRs

    A shallow embedding of [tpm_futurepcr/__init__.py] (the command line
    program) and of [lib/__init__.py] (the earlier script with the same hash
    chain written inline), and the properties of the dual hash chain. *)

From Stdlib Require Import ZArith List Strings.String Strings.Byte Bool Lia.
From stdpp Require Import base decidable option list strings gmap sorting.

Open Scope Z_scope.

(** ** Byte strings *)

Abbreviation bytes := (list byte).

#[global] Instance byte_eq_decision : EqDecision byte := Byte.byte_eq_dec.

Definition byte_of_Z (z : Z) : byte :=
  match Byte.of_N (Z.to_N (z mod 256)) with
  | Some b => b
  | None => x00
  end.

Definition Z_of_byte (b : byte) : Z := Z.of_N (Byte.to_N b).

(** [hashlib.sha1(m).digest()]: the standard library's SHA-1 (FIPS 180-4),
    on 32-bit words kept in [Z] with the wrap-around written out. *)
Module SHA1.

Definition w32 (x : Z) : Z := x mod 2 ^ 32.

Definition rotl (n x : Z) : Z :=
  w32 (Z.lor (Z.shiftl x n) (Z.shiftr x (32 - n))).

Definition word_of_bytes (b3 b2 b1 b0 : byte) : Z :=
  Z.lor (Z.shiftl (Z_of_byte b3) 24)
    (Z.lor (Z.shiftl (Z_of_byte b2) 16)
       (Z.lor (Z.shiftl (Z_of_byte b1) 8) (Z_of_byte b0))).

Definition bytes_of_word (w : Z) : bytes :=
  [byte_of_Z (Z.shiftr w 24); byte_of_Z (Z.shiftr w 16);
   byte_of_Z (Z.shiftr w 8); byte_of_Z w].

(** The message length in bits as eight big-endian bytes. *)
Definition length_bytes (bits : Z) : bytes :=
  bytes_of_word (Z.shiftr bits 32) ++ bytes_of_word (w32 bits).

Definition pad (m : bytes) : bytes :=
  let len := Z.of_nat (length m) in
  let zeros := Z.to_nat ((55 - len) mod 64) in
  m ++ byte_of_Z 128 :: repeat x00 zeros ++ length_bytes (8 * len).

Fixpoint words (bs : bytes) : list Z :=
  match bs with
  | b3 :: b2 :: b1 :: b0 :: rest => word_of_bytes b3 b2 b1 b0 :: words rest
  | _ => []
  end.

Fixpoint chunks (n : nat) (ws : list Z) : list (list Z) :=
  match n with
  | O => []
  | S n' => firstn 16 ws :: chunks n' (skipn 16 ws)
  end.

Definition wd (w : list Z) (i : nat) : Z := nth i w 0.

(** The message schedule: [k] more words after the [length w] present. *)
Fixpoint schedule (k : nat) (w : list Z) : list Z :=
  match k with
  | O => w
  | S k' =>
      let i := length w in
      let x := Z.lxor (Z.lxor (wd w (i - 3)) (wd w (i - 8)))
                      (Z.lxor (wd w (i - 14)) (wd w (i - 16))) in
      schedule k' (w ++ [rotl 1 x])
  end.

Definition f (i : nat) (b c d : Z) : Z :=
  if (i <? 20)%nat then Z.lor (Z.land b c) (Z.land (Z.lxor b 4294967295) d)
  else if (i <? 40)%nat then Z.lxor (Z.lxor b c) d
  else if (i <? 60)%nat then
    Z.lor (Z.lor (Z.land b c) (Z.land b d)) (Z.land c d)
  else Z.lxor (Z.lxor b c) d.

Definition K (i : nat) : Z :=
  if (i <? 20)%nat then 1518500249
  else if (i <? 40)%nat then 1859775393
  else if (i <? 60)%nat then 2400959708
  else 3395469782.

Record regs := Regs { ra : Z; rb : Z; rc : Z; rd : Z; re : Z }.

Definition round (r : regs) (iw : nat * Z) : regs :=
  let '(i, w) := iw in
  let temp := w32 (rotl 5 (ra r) + f i (rb r) (rc r) (rd r) + re r + K i + w) in
  Regs temp (ra r) (rotl 30 (rb r)) (rc r) (rd r).

Definition compress (h : regs) (chunk : list Z) : regs :=
  let w := schedule 64 chunk in
  let r := fold_left round (combine (seq 0 80) w) h in
  Regs (w32 (ra h + ra r)) (w32 (rb h + rb r)) (w32 (rc h + rc r))
       (w32 (rd h + rd r)) (w32 (re h + re r)).

Definition init : regs :=
  Regs 1732584193 4023233417 2562383102 271733878 3285377520.

Definition digest (m : bytes) : bytes :=
  let p := pad m in
  let h := fold_left compress (chunks (length p / 64) (words p)) init in
  bytes_of_word (ra h) ++ bytes_of_word (rb h) ++ bytes_of_word (rc h)
    ++ bytes_of_word (rd h) ++ bytes_of_word (re h).

Definition digest_size : nat := 20.

End SHA1.

(** Hexadecimal text of a byte string, to read digests. *)
Definition hex_digit (n : Z) : string :=
  String.substring (Z.to_nat n) 1 "0123456789abcdef".

Definition hex (bs : bytes) : string :=
  fold_right
    (fun b s => hex_digit (Z_of_byte b / 16) +:+ hex_digit (Z_of_byte b mod 16) +:+ s)
    EmptyString bs.

Definition ascii_bytes (s : string) : bytes :=
  map (fun a => byte_of_Z (Z.of_nat (Ascii.nat_of_ascii a))) (list_ascii_of_string s).

(** ** Exceptions, results and the trace of input and output *)

Inductive key :=
| IntKey (k : Z)
| StrKey (k : string).

(** The exception classes that reach [main]; all of them are subclasses of
    [Exception]. *)
Inductive exn :=
| KeyError (k : key)
| FileNotFoundError
| UnicodeDecodeError
| OtherException (text : string).

(** What a call of a collaborator gives: a value, or a raised exception. *)
Inductive pyres (A : Type) :=
| Return (a : A)
| Raise (e : exn).
Arguments Return {A} a.
Arguments Raise {A} e.

(** Modelled from the spec: [TpmEventType] of the module [tpm_constants],
    which is not among the sources: the three kinds [main] tests for, and the
    others by their tag. *)
Inductive TpmEventType :=
| EFI_BOOT_SERVICES_APPLICATION
| IPL
| NO_ACTION
| OtherEvent (tag : Z).

#[global] Instance TpmEventType_eq_dec : EqDecision TpmEventType.
Proof. solve_decision. Defined.

(** A log entry: the dict that [enum_log_entries] yields. The key
    [pcr_extend_value] may be missing. *)
Record Event := {
  pcr_idx : Z;
  event_type : TpmEventType;
  event_data : bytes;
  pcr_extend_value : option bytes
}.

(** The result of [parse_efi_bsa_event]; [main] only hands the node list on. *)
Record EfiBsaEvent := { device_path_vec : list bytes }.

(** The lines the programs print, with the values they show. *)
Inductive msg :=
| SkipNoSha1Bank
| SkipVirtualPcr
| ExceptionText (e : exn)
| CoffHeader
| FilePath (p : option string)
| FileHash (h : bytes)
| ThisExtendValue (v : bytes)
| GuessedExtendValue (v : bytes)
| GuessedNextPcrValue (v : bytes)
| NoLinuxPath
| UnusualBootEvents
| CmdlineHeader
| ThisCmdline (c : string)
| NextCmdline (c : string)
| NotTouchingIpl
| AfterEvent (idx : Z) (v : bytes)
| AfterReboot (idx : Z) (v : bytes)
| BlankLine
| CompareTitle
| CompareHeader
| CompareRow (idx : Z) (real computed : bytes) (good : bool)
| FinalTitle
| LegacyFinalTitle
| FinalHeader
| FinalRow (idx : Z) (this next : bytes)
| FatalErrors.

Inductive io :=
| ShowLogEntry (e : Event)
| Stdout (m : msg)
| Stderr (m : msg)
| OpenWrite (path : string)
| FileWrite (bs : bytes).

(** How a computation ends: it returns, an exception propagates, or
    [exit(status)] was called. *)
Inductive ctl (A : Type) :=
| Done (a : A)
| Raised (e : exn)
| SystemExit (status : Z).
Arguments Done {A} a.
Arguments Raised {A} e.
Arguments SystemExit {A} status.

(** A computation: what it printed and wrote, and how it ended. *)
Definition M (A : Type) : Type := list io * ctl A.

Definition ret {A} (a : A) : M A := ([], Done a).

Definition bind {A B} (m : M A) (k : A -> M B) : M B :=
  match m with
  | (t, Done a) => let '(t', r) := k a in (t ++ t', r)
  | (t, Raised e) => (t, Raised e)
  | (t, SystemExit s) => (t, SystemExit s)
  end.

Notation "'do' x <- c1 ; c2" := (bind c1 (fun x => c2))
  (at level 10, x name, c1 at level 100, c2 at level 200).
Notation "'do' ' pat <- c1 ; c2" :=
  (bind c1 (fun x => match x with pat => c2 end))
  (at level 10, pat pattern, c1 at level 100, c2 at level 200).
Notation "'do_' c1 ; c2" := (bind c1 (fun _ => c2))
  (at level 10, c1 at level 100, c2 at level 200).

Definition emit (o : io) : M unit := ([o], Done tt).
Definition print (m : msg) : M unit := emit (Stdout m).
Definition print_stderr (m : msg) : M unit := emit (Stderr m).
Definition raise {A} (e : exn) : M A := ([], Raised e).
Definition exit {A} (status : Z) : M A := ([], SystemExit status).

Definition call {A} (r : pyres A) : M A :=
  match r with
  | Return a => ret a
  | Raise e => raise e
  end.

Definition when (b : bool) (m : M unit) : M unit := if b then m else ret tt.

(** [try: body except <classes>: handler]. [exit] is not an [Exception] and
    passes through. *)
Definition try_except {A} (body : M A) (catches : exn -> bool) (handler : exn -> M A) : M A :=
  match body with
  | (t, Raised e) =>
      if catches e then let '(t', r) := handler e in (t ++ t', r) else (t, Raised e)
  | _ => body
  end.

Definition is_FileNotFoundError (e : exn) : bool :=
  match e with FileNotFoundError => true | _ => false end.

(** [for x in xs: st = body(st, x)], the state threaded through. *)
Fixpoint for_each {S X} (body : S -> X -> M S) (xs : list X) (st : S) : M S :=
  match xs with
  | [] => ret st
  | x :: xs' => do st' <- body st x; for_each body xs' st'
  end.

(** [for x in xs: body(x)] *)
Fixpoint for_ {X} (body : X -> M unit) (xs : list X) : M unit :=
  match xs with
  | [] => ret tt
  | x :: xs' => do_ body x; for_ body xs'
  end.

(** The exit status of the process for the way [main] ended: the end of
    [main] is status 0, an exception nobody caught is status 1. *)
Definition exit_status {A} (r : ctl A) : Z :=
  match r with
  | Done _ => 0
  | Raised _ => 1
  | SystemExit s => s
  end.

(** ** The register banks *)

(** [d[k]] on a dict with integer keys. *)
Definition getitem (d : gmap Z bytes) (k : Z) : M bytes :=
  match d !! k with
  | Some v => ret v
  | None => raise (KeyError (IntKey k))
  end.

(** Truth of a [str] or [None]. *)
Definition truthy (s : option string) : bool :=
  match s with
  | Some s => negb (String.eqb s "")
  | None => false
  end.

(** [NUM_PCRS] and [PCR_SIZE] come to [main] from the module [util], which is
    not among the sources; [lib/__init__.py] defines them in lines 20-21 as 24
    and [hashlib.sha1().digest_size]. *)
Definition NUM_PCRS : Z := 24.
Definition PCR_SIZE : nat := SHA1.digest_size.

(** [range(n)] *)
Definition range (n : Z) : list Z := seqZ 0 n.

(** [b * n] for a one-byte [b]. *)
Definition bytes_times (b : byte) (n : nat) : bytes := repeat b n.

(** The locality-reset set of the specification. *)
Definition locality_reset : list Z := [17; 18; 19; 20; 21; 22].

(** Modelled from the spec: [init_empty_pcrs] of the module [util], which is
    not among the sources. All 24 indices are populated; the locality-reset
    set {17,...,22} starts at all-one bits and every other index at zero. *)
Definition init_empty_pcrs : gmap Z bytes :=
  list_to_map
    (map (fun x => (x, bytes_times (if bool_decide (x ∈ locality_reset) then xff else x00) PCR_SIZE))
         (range NUM_PCRS)).

(** Modelled from the spec: [hash_bytes] of the module [util], which is not
    among the sources: the legacy digest function H. *)
Definition hash_bytes (buf : bytes) : bytes := SHA1.digest buf.

(** Modelled from the spec: [extend_pcr_with_hash] of the module [util], which
    is not among the sources: the extend rule [new = H(old || value)]. *)
Definition extend_pcr_with_hash (pcr_value extend_value : bytes) : bytes :=
  hash_bytes (pcr_value ++ extend_value).

(** ** The collaborators and the command line *)

(** The functions [main] imports from [event_log], [systemd_boot] and [util],
    which read the log, the disk, the firmware variables and the TPM. They are
    taken as given: each is a function of its arguments that returns or
    raises. [decode_utf16le] is [bytes.decode("utf-16le")]. *)
Record Externals := {
  enum_log_entries : option string -> list Event;
  parse_efi_bsa_event : bytes -> pyres EfiBsaEvent;
  device_path_to_unix_path : list bytes -> pyres (option string);
  hash_pecoff : option string -> string -> pyres bytes;
  loader_get_next_cmdline : option string -> pyres string;
  loader_encode_pcr8 : string -> pyres bytes;
  decode_utf16le : bytes -> pyres string;
  read_current_pcrs : list Z -> pyres (gmap Z bytes);
  read_current_pcr : Z -> pyres bytes
}.

(** The parsed arguments. [pcr_list] is the text of [-L] after
    [split(",")] and [int]; [None] is an absent or empty option. *)
Record Args := {
  pcr_list : option (list Z);
  output : option string;
  compare : bool;
  verbose : bool;
  log_path : option string
}.

(** The variables of [main] that live across the iterations of the loop. *)
Record Pass := {
  this_pcrs : gmap Z bytes;
  next_pcrs : gmap Z bytes;
  last_efi_binary : option string;
  errors : Z
}.

Definition set_errors (n : Z) (st : Pass) : Pass :=
  {| this_pcrs := this_pcrs st; next_pcrs := next_pcrs st;
     last_efi_binary := last_efi_binary st; errors := n |}.

Definition set_last_efi_binary (p : option string) (st : Pass) : Pass :=
  {| this_pcrs := this_pcrs st; next_pcrs := next_pcrs st;
     last_efi_binary := p; errors := errors st |}.

Definition set_this_pcrs (m : gmap Z bytes) (st : Pass) : Pass :=
  {| this_pcrs := m; next_pcrs := next_pcrs st;
     last_efi_binary := last_efi_binary st; errors := errors st |}.

Definition set_next_pcrs (m : gmap Z bytes) (st : Pass) : Pass :=
  {| this_pcrs := this_pcrs st; next_pcrs := m;
     last_efi_binary := last_efi_binary st; errors := errors st |}.

(** [0xFFFFFFFF], the index of line 50. *)
Definition VIRTUAL_PCR : Z := 4294967295.

Section Program.

Variable X : Externals.
Variable args : Args.

(** Lines 27-32. *)
Definition verbose_all_pcrs : bool :=
  match pcr_list args with Some _ => false | None => true end.

Definition wanted_pcrs : list Z :=
  match pcr_list args with Some l => l | None => range NUM_PCRS end.

(** Line 42. *)
Definition verbose_pcr (idx : Z) : bool :=
  verbose args && (verbose_all_pcrs || bool_decide (idx ∈ wanted_pcrs)).

(** Lines 57-83, the branch for a boot application. The result is the state
    and the value for the predicted chain, or [None] for [continue]. *)
Definition boot_application (st : Pass) (event : Event) (this_extend_value : bytes)
  : M (Pass * option bytes) :=
  let idx := pcr_idx event in
  do event_data <- call (parse_efi_bsa_event X (event_data event));
  do '(unix_path, st) <-
    try_except
      (do unix_path <- call (device_path_to_unix_path X (device_path_vec event_data));
       ret (unix_path, st))
      (fun _ => true)
      (fun e => do_ print (ExceptionText e); ret (None, set_errors 1 st));
  if truthy unix_path then
    do file_hash <- call (hash_pecoff X unix_path "sha1");
    let next_extend_value := file_hash in
    let st := set_last_efi_binary unix_path st in
    do_ when (verbose_pcr idx)
      (do_ print CoffHeader;
       do_ print (FilePath unix_path);
       do_ print (FileHash file_hash);
       do_ print (ThisExtendValue this_extend_value);
       print (GuessedExtendValue next_extend_value));
    ret (st, Some next_extend_value)
  else
    if verbose args then
      do_ print NoLinuxPath;
      ret (st, None)
    else
      do_ print_stderr UnusualBootEvents;
      exit 1.

(** Lines 85-99, the branch for the command line of the boot loader. The
    result is the value for the predicted chain. *)
Definition loader_cmdline (st : Pass) (event : Event) (next_extend_value : bytes)
  : M bytes :=
  try_except
    (do cmdline <- call (loader_get_next_cmdline X (last_efi_binary st));
     do_ (if verbose args then
            do old_cmdline <- call (decode_utf16le X (removelast (event_data event)));
            do_ print CmdlineHeader;
            do_ print (ThisCmdline old_cmdline);
            print (NextCmdline cmdline)
          else ret tt);
     do cmdline <- call (loader_encode_pcr8 X cmdline);
     ret (hash_bytes cmdline))
    is_FileNotFoundError
    (fun _ =>
       do_ when (verbose args) (print NotTouchingIpl);
       ret next_extend_value).

(** Lines 101-103. *)
Definition fold_event (st : Pass) (idx : Z) (this_extend_value next_extend_value : bytes)
  : M Pass :=
  do this_value <- getitem (this_pcrs st) idx;
  let st := set_this_pcrs (<[idx := extend_pcr_with_hash this_value this_extend_value]> (this_pcrs st)) st in
  do next_value <- getitem (next_pcrs st) idx;
  let st := set_next_pcrs (<[idx := extend_pcr_with_hash next_value next_extend_value]> (next_pcrs st)) st in
  ret st.

(** Lines 40-108: the body of the loop over the log. *)
Definition process_event (st : Pass) (event : Event) : M Pass :=
  let idx := pcr_idx event in
  let _verbose_pcr := verbose_pcr idx in
  do_ when _verbose_pcr (emit (ShowLogEntry event));
  match pcr_extend_value event with
  | None =>
      do_ print SkipNoSha1Bank;
      ret st
  | Some this_extend_value =>
      if bool_decide (idx = VIRTUAL_PCR) then
        do_ print SkipVirtualPcr;
        ret st
      else
        let next_extend_value := this_extend_value in
        do '(st, next) <-
          (if bool_decide (event_type event = EFI_BOOT_SERVICES_APPLICATION)
           then boot_application st event this_extend_value
           else ret (st, Some next_extend_value));
        match next with
        | None => ret st
        | Some next_extend_value =>
            do next_extend_value <-
              (if bool_decide (event_type event = IPL) && bool_decide (idx ∈ wanted_pcrs)
               then loader_cmdline st event next_extend_value
               else ret next_extend_value);
            do st <-
              (if bool_decide (event_type event ≠ NO_ACTION)
               then fold_event st idx this_extend_value next_extend_value
               else ret st);
            do_ when _verbose_pcr
              (do this_value <- getitem (this_pcrs st) idx;
               do_ print (AfterEvent idx this_value);
               do next_value <- getitem (next_pcrs st) idx;
               do_ print (AfterReboot idx next_value);
               print BlankLine);
            ret st
        end
  end.

(** Lines 34-37. [{**this_pcrs}] is a new dict with the same items. *)
Definition initial_pass : Pass :=
  let this_pcrs := init_empty_pcrs in
  let next_pcrs := this_pcrs in
  {| this_pcrs := this_pcrs; next_pcrs := next_pcrs;
     last_efi_binary := None; errors := 0 |}.

(** Lines 39-108. *)
Definition replay (events : list Event) (st : Pass) : M Pass :=
  for_each process_event events st.

(** Lines 110-122. The tally of the pass is not an argument: line 113 sets
    [errors] to zero. *)
Definition compare_live (st : Pass) : M unit :=
  do_ print CompareTitle;
  do real_pcrs <- call (read_current_pcrs X wanted_pcrs);
  let errors := 0 in
  do_ print CompareHeader;
  do errors <-
    for_each
      (fun errors idx =>
         do real <- getitem real_pcrs idx;
         do this <- getitem (this_pcrs st) idx;
         let '(errors, good) :=
           if bool_decide (real = this) then (errors, true) else (errors + 1, false) in
         do_ print (CompareRow idx real this good);
         ret errors)
      wanted_pcrs errors;
  exit (if errors >? 0 then 1 else 0).

(** Lines 124-128. *)
Definition final_table (st : Pass) : M unit :=
  do_ print FinalTitle;
  do_ print FinalHeader;
  for_
    (fun idx =>
       do this <- getitem (this_pcrs st) idx;
       do next <- getitem (next_pcrs st) idx;
       print (FinalRow idx this next))
    wanted_pcrs.

(** Lines 134-137. *)
Definition write_output (path : string) (st : Pass) : M unit :=
  do_ emit (OpenWrite path);
  for_
    (fun idx =>
       do next <- getitem (next_pcrs st) idx;
       emit (FileWrite next))
    wanted_pcrs.

(** Lines 110-137: what follows the loop. *)
Definition report (st : Pass) : M unit :=
  do_ (if compare args then compare_live st else ret tt);
  do_ when (verbose args || negb (truthy (output args))) (final_table st);
  do_ (if bool_decide (errors st ≠ 0) then
         do_ print_stderr FatalErrors;
         exit 1
       else ret tt);
  match output args with
  | Some path => if truthy (output args) then write_output path st else ret tt
  | None => ret tt
  end.

Definition main : M unit :=
  do st <- replay (enum_log_entries X (log_path args)) initial_pass;
  report st.

End Program.

(** ** The earlier script, [lib/__init__.py]

    It has no filter, no error handling and no options; the reset values and
    the extend rule are written inline. *)
Module Lib.

Record Banks := {
  this_pcrs : gmap Z bytes;
  next_pcrs : gmap Z bytes
}.

Definition SHA512_DIGEST_SIZE : Z := 512 / 8.
(** [NUM_PCRS] and [PCR_SIZE] come to [main] from the module [util], which is
    not among the sources; [lib/__init__.py] defines them in lines 20-21 as 24
    and [hashlib.sha1().digest_size]. *)
Definition NUM_PCRS : Z := 24.
Definition PCR_SIZE : nat := SHA1.digest_size.

(** Lines 22-24. [update] overrides the keys it names. *)
Definition initial_banks : Banks :=
  let this_pcrs : gmap Z bytes :=
    list_to_map (map (fun x => (x, bytes_times x00 PCR_SIZE)) (range NUM_PCRS)) in
  let this_pcrs : gmap Z bytes :=
    list_to_map (map (fun x => (x, bytes_times xff PCR_SIZE)) [17; 18; 19; 20; 21; 22])
      ∪ this_pcrs in
  let next_pcrs := this_pcrs in
  {| this_pcrs := this_pcrs; next_pcrs := next_pcrs |}.

Section Program.

Variable X : Externals.
(** The global [quiet], [False] in the source. *)
Variable quiet : bool.

(** [event["pcr_extend_value"]] *)
Definition extend_value_of (event : Event) : M bytes :=
  match pcr_extend_value event with
  | Some v => ret v
  | None => raise (KeyError (StrKey "pcr_extend_value"))
  end.

(** Lines 27-53: the body of the loop. *)
Definition process_event (st : Banks) (event : Event) : M Banks :=
  do_ when (negb quiet) (emit (ShowLogEntry event));
  let idx := pcr_idx event in
  do this_extend_value <- extend_value_of event;
  do next_extend_value <- extend_value_of event;
  do next_extend_value <-
    (if bool_decide (event_type event = EFI_BOOT_SERVICES_APPLICATION) then
       do ed <- call (parse_efi_bsa_event X (event_data event));
       do unix_path <- call (device_path_to_unix_path X (device_path_vec ed));
       do file_hash <- call (hash_pecoff X unix_path "sha1");
       let next_extend_value := file_hash in
       do pcr_value <- getitem (this_pcrs st) idx;
       let pcr_value := SHA1.digest (pcr_value ++ next_extend_value) in
       do_ when (negb quiet)
         (do_ print CoffHeader;
          do_ print (FilePath unix_path);
          do_ print (FileHash file_hash);
          do_ print (ThisExtendValue this_extend_value);
          do_ print (GuessedExtendValue next_extend_value);
          print (GuessedNextPcrValue pcr_value));
       ret next_extend_value
     else ret next_extend_value);
  do this_value <- getitem (this_pcrs st) idx;
  let st :=
    {| this_pcrs := <[idx := SHA1.digest (this_value ++ this_extend_value)]> (this_pcrs st);
       next_pcrs := next_pcrs st |} in
  do next_value <- getitem (next_pcrs st) idx;
  let st :=
    {| this_pcrs := this_pcrs st;
       next_pcrs := <[idx := SHA1.digest (next_value ++ next_extend_value)]> (next_pcrs st) |} in
  do_ when (negb quiet)
    (do this_value <- getitem (this_pcrs st) idx;
     do_ print (AfterEvent idx this_value);
     do next_value <- getitem (next_pcrs st) idx;
     do_ print (AfterReboot idx next_value);
     print BlankLine);
  ret st.

Definition replay (events : list Event) (st : Banks) : M Banks :=
  for_each process_event events st.

(** Lines 55-58: register 8 is read from the TPM when the log left it at
    zero. *)
Definition patch_pcr8 (st : Banks) : M Banks :=
  do pcr8 <- getitem (this_pcrs st) 8;
  if bool_decide (pcr8 = bytes_times x00 PCR_SIZE) then
    do live <- call (read_current_pcr X 8);
    let st := {| this_pcrs := <[8 := live]> (this_pcrs st); next_pcrs := next_pcrs st |} in
    do pcr8 <- getitem (this_pcrs st) 8;
    ret {| this_pcrs := this_pcrs st; next_pcrs := <[8 := pcr8]> (next_pcrs st) |}
  else ret st.

(** Lines 60-68. *)
Definition report (st : Banks) : M unit :=
  let wanted_pcrs := range NUM_PCRS in
  if quiet then
    do_ emit (OpenWrite "/dev/stdout");
    for_
      (fun x =>
         do next <- getitem (next_pcrs st) x;
         emit (FileWrite next))
      wanted_pcrs
  else
    do_ print LegacyFinalTitle;
    for_
      (fun x =>
         do this <- getitem (this_pcrs st) x;
         do next <- getitem (next_pcrs st) x;
         print (FinalRow x this next))
      (range NUM_PCRS).

Definition main : M unit :=
  do st <- replay (enum_log_entries X None) initial_banks;
  do st <- patch_pcr8 st;
  report st.

End Program.

End Lib.

(** ** Concrete inputs to run the programs on *)

Definition digest_of (b : byte) : bytes := bytes_times b 20.

Definition plain_event (idx : Z) (v : bytes) : Event :=
  {| pcr_idx := idx; event_type := OtherEvent 4; event_data := [];
     pcr_extend_value := Some v |}.

Definition boot_event (idx : Z) (v : bytes) : Event :=
  {| pcr_idx := idx; event_type := EFI_BOOT_SERVICES_APPLICATION; event_data := [];
     pcr_extend_value := Some v |}.

Definition no_action_event (idx : Z) (v : bytes) : Event :=
  {| pcr_idx := idx; event_type := NO_ACTION; event_data := [];
     pcr_extend_value := Some v |}.

Definition ipl_event (idx : Z) (v : bytes) : Event :=
  {| pcr_idx := idx; event_type := IPL; event_data := [];
     pcr_extend_value := Some v |}.

(** A machine given by its log, by what the device path of every boot
    application resolves to, and by what the loader predicts. The live
    registers read as the reset values. *)
Definition machine (log : list Event) (path : pyres (option string))
    (cmdline : pyres string) : Externals :=
  {| enum_log_entries := fun _ => log;
     parse_efi_bsa_event := fun _ => Return {| device_path_vec := [] |};
     device_path_to_unix_path := fun _ => path;
     hash_pecoff := fun _ _ => Return (digest_of x33);
     loader_get_next_cmdline := fun _ => cmdline;
     loader_encode_pcr8 := fun c => Return (ascii_bytes c);
     decode_utf16le := fun _ => Return EmptyString;
     read_current_pcrs := fun _ => Return init_empty_pcrs;
     read_current_pcr := fun _ => Return (digest_of x00) |}.

Definition options (l : option (list Z)) (out : option string) (cmp verb : bool) : Args :=
  {| pcr_list := l; output := out; compare := cmp; verbose := verb; log_path := None |}.

(** * Properties *)

Arguments SHA1.digest : simpl never.

(** ** The vocabulary of the statements *)

(** The reset value of register [i]. *)
Definition reset_value (i : Z) : bytes :=
  repeat (if bool_decide (17 ≤ i ≤ 22) then xff else x00) 20.

(** Every output of the computation satisfies [P]. *)
Definition emits_only {A} (P : io → Prop) (m : M A) : Prop := Forall P (fst m).

(** When the computation returns, its value satisfies [Q]. *)
Definition returns {A} (m : M A) (Q : A → Prop) : Prop :=
  ∀ a, snd m = Done a → Q a.

(** The final table and the output file: what [main] produces after the pass
    and the comparison. *)
Definition is_result_output (o : io) : bool :=
  match o with
  | OpenWrite _ | FileWrite _ => true
  | Stdout FinalTitle | Stdout FinalHeader | Stdout (FinalRow _ _ _) => true
  | _ => false
  end.

Definition not_result_output (o : io) : Prop := is_result_output o = false.

(** The bytes written to the files the computation opened. *)
Fixpoint written (t : list io) : bytes :=
  match t with
  | [] => []
  | FileWrite bs :: t' => bs ++ written t'
  | _ :: t' => written t'
  end.

(** The digests of the registers [l] in the bank [m], one after the other. *)
Definition digests_of (m : gmap Z bytes) (l : list Z) : bytes :=
  concat (map (λ idx, default [] (m !! idx)) l).

(** [m'] is [m] after one extend of register [idx] with [d]. *)
Definition extended (m : gmap Z bytes) (idx : Z) (d : bytes) (m' : gmap Z bytes) : Prop :=
  ∃ v, m !! idx = Some v ∧ m' = <[idx := SHA1.digest (v ++ d)]> m.

(** The bank holds exactly the registers 0 to 23. *)
Definition populated (m : gmap Z bytes) : Prop :=
  ∀ i, is_Some (m !! i) ↔ 0 ≤ i < 24.

(** The requested indices are registers. *)
Definition registers (l : list Z) : Prop := Forall (λ idx, 0 ≤ idx < 24) l.

(** An entry that takes neither of the two branches and is folded: not a
    boot application, not NO_ACTION, and not an IPL entry on a requested
    register. *)
Definition plain_measurement (args : Args) (e : Event) : bool :=
  negb (bool_decide (event_type e = EFI_BOOT_SERVICES_APPLICATION))
  && negb (bool_decide (event_type e = NO_ACTION))
  && negb (bool_decide (event_type e = IPL) && bool_decide (pcr_idx e ∈ wanted_pcrs args)).

(** The device path did not resolve: the resolver raised, or gave no path. *)
Definition unresolved (r : pyres (option string)) : bool :=
  match r with
  | Raise _ => true
  | Return p => negb (truthy p)
  end.

(** The tally after an unresolved boot application: line 63 sets it to 1
    when the resolver raised. *)
Definition tally_after (r : pyres (option string)) (errors : Z) : Z :=
  match r with
  | Raise _ => 1
  | Return _ => errors
  end.

(** The entry passes the filter of lines 46-52. *)
Definition measured (e : Event) : bool :=
  bool_decide (is_Some (pcr_extend_value e)) && negb (bool_decide (pcr_idx e = VIRTUAL_PCR)).

(** A boot application whose path resolved and was hashed again. *)
Definition rehashed_boot_application (X : Externals) (e : Event) : bool :=
  bool_decide (event_type e = EFI_BOOT_SERVICES_APPLICATION)
  && match parse_efi_bsa_event X (event_data e) with
     | Return ed =>
         match device_path_to_unix_path X (device_path_vec ed) with
         | Return p =>
             truthy p
             && match hash_pecoff X p "sha1" with Return _ => true | Raise _ => false end
         | Raise _ => false
         end
     | Raise _ => false
     end.

(** An IPL entry on a requested register whose command line was predicted. *)
Definition predicted_cmdline (X : Externals) (args : Args) (st : Pass) (e : Event) : bool :=
  bool_decide (event_type e = IPL) && bool_decide (pcr_idx e ∈ wanted_pcrs args)
  && match loader_get_next_cmdline X (last_efi_binary st) with
     | Return c =>
         match loader_encode_pcr8 X c with Return _ => true | Raise _ => false end
     | Raise _ => false
     end.

(** The entry is classified as divergent in the state [st]. *)
Definition divergent (X : Externals) (args : Args) (st : Pass) (e : Event) : bool :=
  measured e && (rehashed_boot_application X e || predicted_cmdline X args st e).

(** Some entry of [events], processed from [st] on, touches register [i] and
    is classified as divergent. *)
Fixpoint touched_divergent (X : Externals) (args : Args) (i : Z) (st : Pass)
    (events : list Event) : bool :=
  match events with
  | [] => false
  | e :: events' =>
      (bool_decide (pcr_idx e = i) && divergent X args st e)
      || match snd (process_event X args st e) with
         | Done st' => touched_divergent X args i st' events'
         | _ => false
         end
  end.

(** The requested registers whose live value differs from the computed one. *)
Definition mismatches (real this : gmap Z bytes) (l : list Z) : list Z :=
  filter (λ idx, real !! idx ≠ this !! idx) l.

(** The requested indices in ascending order. *)
Definition ascending (l : list Z) : list Z := merge_sort Z.le l.

(** What goes to a file. *)
Definition is_file_output (o : io) : bool :=
  match o with
  | OpenWrite _ | FileWrite _ => true
  | _ => false
  end.

Definition not_file_output (o : io) : Prop := is_file_output o = false.

(** ** Further vocabulary *)

(** The bank holds exactly the registers 0 to 23, 20 bytes each. *)
Definition wellformed (m : gmap Z bytes) : Prop :=
  ∀ i, (is_Some (m !! i) ↔ 0 ≤ i < 24) ∧ ∀ v, m !! i = Some v → length v = 20%nat.

(** The hash chain from [v] over the values [ds]. *)
Definition chain (v : bytes) (ds : list bytes) : bytes :=
  fold_left (λ v d, SHA1.digest (v ++ d)) ds v.

(** The logged extend values of the entries on register [i], in log order. *)
Definition values_on (i : Z) (events : list Event) : list bytes :=
  omap (λ e, if bool_decide (pcr_idx e = i) then pcr_extend_value e else None) events.

(** An ordinary measurement: an entry with an extend value on a register
    0..23 that takes neither branch and is folded. *)
Definition ordinary (args : Args) (e : Event) : bool :=
  plain_measurement args e
  && bool_decide (is_Some (pcr_extend_value e))
  && bool_decide (0 ≤ pcr_idx e < 24).

(** The lines of the pass that do not depend on [--verbose]. *)
Definition is_unconditional_line (o : io) : bool :=
  match o with
  | Stdout SkipNoSha1Bank | Stdout SkipVirtualPcr | Stdout (ExceptionText _) => true
  | Stderr UnusualBootEvents => true
  | _ => false
  end.

(** The lines of the final table. *)
Definition is_table_line (o : io) : bool :=
  match o with
  | Stdout FinalTitle | Stdout FinalHeader | Stdout (FinalRow _ _ _) => true
  | _ => false
  end.


(** The value an entry gives to the predicted chain after lines 85-99, when
    [value] is what lines 54-68 left. *)
Definition cmdline_value (X : Externals) (wanted : list Z) (trail : option string)
    (e : Event) (value : bytes) : bytes :=
  if bool_decide (event_type e = IPL) && bool_decide (pcr_idx e ∈ wanted) then
    match loader_get_next_cmdline X trail with
    | Return c =>
        match loader_encode_pcr8 X c with
        | Return b => SHA1.digest b
        | Raise _ => value
        end
    | Raise _ => value
    end
  else value.

(** One extend of register [idx] of a bank; a bank without the register is
    left alone. *)
Definition extend_bank (m : gmap Z bytes) (idx : Z) (d : bytes) : gmap Z bytes :=
  match m !! idx with
  | Some v => <[idx := SHA1.digest (v ++ d)]> m
  | None => m
  end.

(** The state an entry leaves when its processing returns, read off what the
    collaborators return; the options enter through the requested indices
    only. *)
Definition state_after (X : Externals) (wanted : list Z) (st : Pass) (e : Event) : Pass :=
  match pcr_extend_value e with
  | None => st
  | Some L =>
      if bool_decide (pcr_idx e = VIRTUAL_PCR) then st
      else
        let '(st1, next) :=
          if bool_decide (event_type e = EFI_BOOT_SERVICES_APPLICATION) then
            match parse_efi_bsa_event X (event_data e) with
            | Return ed =>
                match device_path_to_unix_path X (device_path_vec ed) with
                | Return p =>
                    if truthy p then
                      match hash_pecoff X p "sha1" with
                      | Return P => (set_last_efi_binary p st, Some P)
                      | Raise _ => (st, None)
                      end
                    else (st, None)
                | Raise _ => (set_errors 1 st, None)
                end
            | Raise _ => (st, None)
            end
          else (st, Some L) in
        match next with
        | None => st1
        | Some value =>
            if bool_decide (event_type e ≠ NO_ACTION) then
              {| this_pcrs := extend_bank (this_pcrs st1) (pcr_idx e) L;
                 next_pcrs :=
                   extend_bank (next_pcrs st1) (pcr_idx e)
                     (cmdline_value X wanted (last_efi_binary st1) e value);
                 last_efi_binary := last_efi_binary st1;
                 errors := errors st1 |}
            else st1
        end
  end.
(** ** SHA-1 on the standard test vectors *)

Example sha1_abc :
  hex (SHA1.digest (ascii_bytes "abc")) = "a9993e364706816aba3e25717850c26c9cd0d89d".
Proof. vm_compute. reflexivity. Qed.

Example sha1_empty :
  hex (SHA1.digest []) = "da39a3ee5e6b4b0d3255bfef95601890afd80709".
Proof. vm_compute. reflexivity. Qed.

Example sha1_two_blocks :
  hex (SHA1.digest
         (ascii_bytes "abcdbcdecdefdefgefghfghighijhijkijkljklmklmnlmnomnopnopq"))
  = "84983e441c3bd26ebaae4aa1f95129e5e54670f1".
Proof. vm_compute. reflexivity. Qed.

Lemma digest_length (m : bytes) : length (SHA1.digest m) = SHA1.digest_size.
Proof. reflexivity. Qed.

Lemma extend_pcr_with_hash_length (v d : bytes) :
  length (extend_pcr_with_hash v d) = PCR_SIZE.
Proof. apply digest_length. Qed.

(** ** The reset values *)

Lemma lookup_tabulate (f : Z → bytes) (l : list Z) (i : Z) :
  (list_to_map (map (λ x, (x, f x)) l) : gmap Z bytes) !! i
  = if bool_decide (i ∈ l) then Some (f i) else None.
Proof.
  induction l as [|x l IH]; simpl.
  - rewrite lookup_empty. reflexivity.
  - rewrite lookup_insert. destruct (decide (x = i)) as [Hx|Hx].
    + subst x. rewrite (bool_decide_eq_true_2 _ (list_elem_of_here i l)). reflexivity.
    + rewrite IH. apply (f_equal (λ b : bool, if b then Some (f i) else None)).
      apply bool_decide_ext. rewrite elem_of_cons.
      split; [intros H; right; exact H|intros [->|H]; [contradiction|exact H]].
Qed.

Lemma elem_of_range (i n : Z) : i ∈ range n ↔ 0 ≤ i < n.
Proof. unfold range. rewrite elem_of_seqZ. lia. Qed.

Lemma elem_of_locality_reset (i : Z) : i ∈ locality_reset ↔ 17 ≤ i ≤ 22.
Proof. unfold locality_reset. rewrite !elem_of_cons, elem_of_nil. lia. Qed.

Lemma init_empty_pcrs_lookup (i : Z) :
  init_empty_pcrs !! i
  = if bool_decide (0 ≤ i < 24) then Some (reset_value i) else None.
Proof.
  unfold init_empty_pcrs. rewrite lookup_tabulate.
  rewrite (bool_decide_ext _ _ (elem_of_range i NUM_PCRS)).
  rewrite (bool_decide_ext _ _ (elem_of_locality_reset i)).
  reflexivity.
Qed.

Lemma legacy_initial_lookup (i : Z) :
  Lib.this_pcrs Lib.initial_banks !! i
  = if bool_decide (0 ≤ i < 24) then Some (reset_value i) else None.
Proof.
  unfold Lib.initial_banks; cbn [Lib.this_pcrs].
  rewrite lookup_union, !lookup_tabulate.
  rewrite (bool_decide_ext _ _ (elem_of_range i Lib.NUM_PCRS)).
  assert (Hr : i ∈ [17; 18; 19; 20; 21; 22] ↔ 17 ≤ i ≤ 22)
    by (rewrite !elem_of_cons, elem_of_nil; lia).
  rewrite (bool_decide_ext _ _ Hr). unfold reset_value.
  change Lib.NUM_PCRS with 24.
  destruct (decide (17 ≤ i ≤ 22)) as [H|H].
  - rewrite (bool_decide_eq_true_2 _ H).
    rewrite bool_decide_eq_true_2 by lia. reflexivity.
  - rewrite (bool_decide_eq_false_2 _ H).
    destruct (bool_decide (0 ≤ i < 24)); reflexivity.
Qed.

(** C2. Before any entry is folded, the current and the predicted bank hold
    exactly the 24 registers 0..23, each 20 bytes long: 0xFF in registers 17
    to 22 and 0x00 in the others; the two banks are equal. This is so in
    [main] and in the earlier script. *)
Theorem C2_reset_values :
  (∀ i : Z,
     this_pcrs initial_pass !! i
     = if bool_decide (0 ≤ i < 24) then Some (reset_value i) else None)
  ∧ next_pcrs initial_pass = this_pcrs initial_pass
  ∧ (∀ i : Z,
       Lib.this_pcrs Lib.initial_banks !! i
       = if bool_decide (0 ≤ i < 24) then Some (reset_value i) else None)
  ∧ Lib.next_pcrs Lib.initial_banks = Lib.this_pcrs Lib.initial_banks
  ∧ (∀ i : Z, length (reset_value i) = 20%nat).
Proof.
  split; [exact init_empty_pcrs_lookup|].
  split; [reflexivity|].
  split; [exact legacy_initial_lookup|].
  split; [reflexivity|].
  intros i. unfold reset_value. apply repeat_length.
Qed.

(** ** Computations: results and traces *)

Lemma snd_bind {A B} (m : M A) (k : A → M B) :
  snd (bind m k)
  = match snd m with
    | Done a => snd (k a)
    | Raised e => Raised e
    | SystemExit s => SystemExit s
    end.
Proof. destruct m as [t [a|e|s]]; simpl; [destruct (k a)|..]; reflexivity. Qed.

Lemma fst_bind {A B} (m : M A) (k : A → M B) :
  fst (bind m k)
  = fst m ++ match snd m with Done a => fst (k a) | _ => [] end.
Proof.
  destruct m as [t [a|e|s]]; simpl; [destruct (k a); reflexivity|..];
    rewrite app_nil_r; reflexivity.
Qed.

Lemma bind_Done_inv {A B} (m : M A) (k : A → M B) (b : B) :
  snd (bind m k) = Done b → ∃ a, snd m = Done a ∧ snd (k a) = Done b.
Proof. rewrite snd_bind. destruct (snd m); [eauto|discriminate..]. Qed.

Lemma for_each_app {S E} (body : S → E → M S) (xs ys : list E) (st : S) :
  for_each body (xs ++ ys) st
  = bind (for_each body xs st) (for_each body ys).
Proof.
  revert st. induction xs as [|x xs IH]; intros st; simpl.
  - destruct (for_each body ys st). reflexivity.
  - destruct (body st x) as [t [st'|e|s]]; simpl; [|reflexivity..].
    rewrite IH. destruct (for_each body xs st') as [t1 [st1|e1|s1]]; simpl.
    + destruct (for_each body ys st1). rewrite app_assoc. reflexivity.
    + reflexivity.
    + reflexivity.
Qed.

Section EmitsOnly.

Context (P : io → Prop).

Lemma emits_only_ret {A} (a : A) : emits_only P (ret a).
Proof. constructor. Qed.

Lemma emits_only_raise {A} (e : exn) : emits_only P (raise e : M A).
Proof. constructor. Qed.

Lemma emits_only_exit {A} (s : Z) : emits_only P (exit s : M A).
Proof. constructor. Qed.

Lemma emits_only_call {A} (r : pyres A) : emits_only P (call r).
Proof. destruct r; constructor. Qed.

Lemma emits_only_getitem (d : gmap Z bytes) (k : Z) : emits_only P (getitem d k).
Proof. unfold getitem. destruct (d !! k); constructor. Qed.

Lemma emits_only_emit (o : io) : P o → emits_only P (emit o).
Proof. intros H. repeat constructor. exact H. Qed.

Lemma emits_only_bind {A B} (m : M A) (k : A → M B) :
  emits_only P m → (∀ a, emits_only P (k a)) → emits_only P (bind m k).
Proof.
  unfold emits_only. intros Hm Hk. rewrite fst_bind. apply Forall_app. split; [exact Hm|].
  destruct (snd m); [apply Hk|constructor..].
Qed.

Lemma emits_only_when (b : bool) (m : M unit) :
  emits_only P m → emits_only P (when b m).
Proof. destruct b; [trivial|constructor]. Qed.

Lemma emits_only_try_except {A} (body : M A) (catches : exn → bool) (handler : exn → M A) :
  emits_only P body → (∀ e, emits_only P (handler e)) →
  emits_only P (try_except body catches handler).
Proof.
  unfold emits_only, try_except. intros Hb Hh.
  destruct body as [t [a|e|s]]; simpl in *; [exact Hb| |exact Hb].
  destruct (catches e); [|exact Hb].
  specialize (Hh e). destruct (handler e) as [t' r]. simpl in *.
  apply Forall_app. split; assumption.
Qed.

Lemma emits_only_for_each {S E} (body : S → E → M S) (xs : list E) (st : S) :
  (∀ st x, emits_only P (body st x)) → emits_only P (for_each body xs st).
Proof.
  intros Hb. revert st. induction xs as [|x xs IH]; intros st; simpl.
  - constructor.
  - apply emits_only_bind; [apply Hb|exact IH].
Qed.

Lemma emits_only_for_ {E} (body : E → M unit) (xs : list E) :
  (∀ x, emits_only P (body x)) → emits_only P (for_ body xs).
Proof.
  intros Hb. induction xs as [|x xs IH]; simpl.
  - constructor.
  - apply emits_only_bind; [apply Hb|intros _; exact IH].
Qed.

End EmitsOnly.

(** Walks a computation down to its single outputs. *)
Ltac emits_only_step :=
  first
    [ apply emits_only_ret | apply emits_only_raise | apply emits_only_exit
    | apply emits_only_call | apply emits_only_getitem
    | apply emits_only_bind; [|intros]
    | apply emits_only_when
    | apply emits_only_try_except; [|intros]
    | apply emits_only_for_each; intros
    | apply emits_only_for_; intros
    | apply emits_only_emit
    | match goal with
      | |- emits_only _ (if ?b then _ else _) => destruct b
      | |- emits_only _ (match ?x with _ => _ end) => destruct x
      | |- emits_only _ (let '(_, _) := ?x in _) => destruct x
      end ].

Lemma process_event_no_result_output X args st e :
  emits_only not_result_output (process_event X args st e).
Proof.
  unfold process_event, boot_application, loader_cmdline, fold_event, print, print_stderr.
  repeat emits_only_step; reflexivity.
Qed.

Lemma replay_no_result_output X args events st :
  emits_only not_result_output (replay X args events st).
Proof. apply emits_only_for_each. intros. apply process_event_no_result_output. Qed.

Lemma compare_live_no_result_output X args st :
  emits_only not_result_output (compare_live X args st).
Proof.
  unfold compare_live, print. repeat emits_only_step; reflexivity.
Qed.

Lemma returns_ret {A} (a : A) (Q : A → Prop) : Q a → returns (ret a) Q.
Proof. intros H b [= <-]. exact H. Qed.

Lemma returns_raise {A} (e : exn) (Q : A → Prop) : returns (raise e) Q.
Proof. intros b [=]. Qed.

Lemma returns_exit {A} (s : Z) (Q : A → Prop) : returns (exit s) Q.
Proof. intros b [=]. Qed.

Lemma returns_emit (o : io) (Q : unit → Prop) : Q tt → returns (emit o) Q.
Proof. intros H b [= <-]. exact H. Qed.

Lemma returns_call {A} (r : pyres A) (Q : A → Prop) :
  (∀ a, r = Return a → Q a) → returns (call r) Q.
Proof. intros H b. destruct r; intros [= <-]. apply H. reflexivity. Qed.

Lemma returns_getitem (d : gmap Z bytes) (k : Z) (Q : bytes → Prop) :
  (∀ v, d !! k = Some v → Q v) → returns (getitem d k) Q.
Proof. unfold getitem. intros H b. destruct (d !! k); intros [= <-]. apply H. reflexivity. Qed.

Lemma returns_bind {A B} (m : M A) (k : A → M B) (Q : B → Prop) :
  returns m (λ a, returns (k a) Q) → returns (bind m k) Q.
Proof.
  intros H b Hb. apply bind_Done_inv in Hb as (a & Ha & Hk). exact (H a Ha b Hk).
Qed.

Lemma returns_when (b : bool) (m : M unit) (Q : unit → Prop) :
  Q tt → returns (when b m) Q.
Proof. intros H []. intros _. exact H. Qed.

Lemma returns_try_except {A} (body : M A) (catches : exn → bool) (handler : exn → M A)
    (Q : A → Prop) :
  returns body Q → (∀ e, snd body = Raised e → returns (handler e) Q) →
  returns (try_except body catches handler) Q.
Proof.
  unfold returns, try_except. intros Hb Hh a.
  destruct body as [t [x|e|s]]; simpl in *; [apply Hb| |apply Hb].
  destruct (catches e); [|discriminate].
  specialize (Hh e eq_refl a). destruct (handler e). simpl in *. exact Hh.
Qed.

Lemma returns_for_each {S E} (body : S → E → M S) (Inv : S → Prop) (xs : list E) (st : S) :
  (∀ st x, Inv st → returns (body st x) Inv) → Inv st → returns (for_each body xs st) Inv.
Proof.
  intros Hb. revert st. induction xs as [|x xs IH]; intros st Hst; simpl.
  - apply returns_ret. exact Hst.
  - apply returns_bind. intros st' Hst'. apply IH. exact (Hb st x Hst st' Hst').
Qed.

Ltac returns_step :=
  cbv beta;
  first
    [ apply returns_raise | apply returns_exit
    | apply returns_bind
    | apply returns_ret
    | apply returns_emit
    | apply returns_when
    | apply returns_call; intros ? ?
    | apply returns_getitem; intros ? ?
    | apply returns_try_except; [|intros ? _]
    | match goal with
      | |- returns (if ?b then _ else _) _ => destruct b eqn:?
      | |- returns (match ?x with _ => _ end) _ => destruct x eqn:?
      end ].

(** ** One step of the pass *)

Ltac unfold_event :=
  unfold process_event, boot_application, loader_cmdline, fold_event, print, print_stderr.

Lemma process_event_transition X args st e :
  returns (process_event X args st e)
    (λ st',
       (this_pcrs st' = this_pcrs st ∧ next_pcrs st' = next_pcrs st)
       ∨ (∃ L d, pcr_extend_value e = Some L
                 ∧ extended (this_pcrs st) (pcr_idx e) L (this_pcrs st')
                 ∧ extended (next_pcrs st) (pcr_idx e) d (next_pcrs st'))).
Proof.
  unfold_event. repeat returns_step.
  all: simpl in *; unfold extend_pcr_with_hash, hash_bytes.
  all: first
    [ left; split; reflexivity
    | right; eexists _, _; split; [reflexivity|];
      split; eexists; (split; [eassumption|reflexivity]) ].
Qed.

Lemma returns_weaken {A} (m : M A) (Q Q' : A → Prop) :
  returns m Q → (∀ a, Q a → Q' a) → returns m Q'.
Proof. intros H HQ a Ha. apply HQ, H, Ha. Qed.

(** *** The entries, kind by kind *)

Lemma fold_event_spec st idx d1 d2 c n :
  this_pcrs st !! idx = Some c → next_pcrs st !! idx = Some n →
  fold_event st idx d1 d2
  = ([], Done {| this_pcrs := <[idx := SHA1.digest (c ++ d1)]> (this_pcrs st);
                 next_pcrs := <[idx := SHA1.digest (n ++ d2)]> (next_pcrs st);
                 last_efi_binary := last_efi_binary st; errors := errors st |}).
Proof.
  intros Hc Hn. unfold fold_event, getitem. rewrite Hc. simpl. rewrite Hn. reflexivity.
Qed.

Lemma plain_measurement_spec args e :
  plain_measurement args e = true →
  bool_decide (event_type e = EFI_BOOT_SERVICES_APPLICATION) = false
  ∧ bool_decide (event_type e ≠ NO_ACTION) = true
  ∧ bool_decide (event_type e = IPL) && bool_decide (pcr_idx e ∈ wanted_pcrs args) = false.
Proof.
  unfold plain_measurement. rewrite !andb_true_iff, !negb_true_iff.
  intros [[H1 H2] H3]. repeat split; try assumption.
  apply bool_decide_eq_true_2. apply bool_decide_eq_false_1 in H2. exact H2.
Qed.

Lemma process_event_plain X args st e d c n :
  plain_measurement args e = true →
  pcr_extend_value e = Some d → pcr_idx e ≠ VIRTUAL_PCR →
  this_pcrs st !! pcr_idx e = Some c → next_pcrs st !! pcr_idx e = Some n →
  snd (process_event X args st e)
  = Done {| this_pcrs := <[pcr_idx e := SHA1.digest (c ++ d)]> (this_pcrs st);
            next_pcrs := <[pcr_idx e := SHA1.digest (n ++ d)]> (next_pcrs st);
            last_efi_binary := last_efi_binary st; errors := errors st |}.
Proof.
  intros Hp Hd Hv Hc Hn. apply plain_measurement_spec in Hp as (Hbsa & Hna & Hipl).
  unfold process_event.
  rewrite Hd, (bool_decide_eq_false_2 _ Hv), Hbsa, Hna, Hipl.
  cbn [bind ret]. rewrite (fold_event_spec _ _ _ _ _ _ Hc Hn).
  destruct (verbose_pcr args (pcr_idx e)); simpl; unfold getitem;
    rewrite ?lookup_insert_eq; reflexivity.
Qed.

Lemma truthy_Some (p : string) : p ≠ EmptyString → truthy (Some p) = true.
Proof. intros H. simpl. apply negb_true_iff, String.eqb_neq, H. Qed.

Lemma process_event_boot_resolved X args st e L ed p P c n :
  event_type e = EFI_BOOT_SERVICES_APPLICATION →
  pcr_extend_value e = Some L → pcr_idx e ≠ VIRTUAL_PCR →
  parse_efi_bsa_event X (event_data e) = Return ed →
  device_path_to_unix_path X (device_path_vec ed) = Return p →
  truthy p = true →
  hash_pecoff X p "sha1" = Return P →
  this_pcrs st !! pcr_idx e = Some c → next_pcrs st !! pcr_idx e = Some n →
  snd (process_event X args st e)
  = Done {| this_pcrs := <[pcr_idx e := SHA1.digest (c ++ L)]> (this_pcrs st);
            next_pcrs := <[pcr_idx e := SHA1.digest (n ++ P)]> (next_pcrs st);
            last_efi_binary := p; errors := errors st |}.
Proof.
  intros Ht HL Hv Hed Hp Htr HP Hc Hn. unfold process_event, boot_application.
  rewrite HL, (bool_decide_eq_false_2 _ Hv), Ht.
  rewrite (bool_decide_eq_true_2 _ (eq_refl EFI_BOOT_SERVICES_APPLICATION)).
  rewrite Hed. cbn [call bind ret]. rewrite Hp. cbn [call bind ret try_except].
  rewrite Htr, HP.
  destruct (verbose_pcr args (pcr_idx e)); simpl; unfold fold_event, getitem; simpl;
    rewrite Hc; simpl; rewrite Hn; simpl; rewrite ?lookup_insert_eq; reflexivity.
Qed.

Lemma process_event_boot_unresolved X args st e L ed :
  event_type e = EFI_BOOT_SERVICES_APPLICATION →
  pcr_extend_value e = Some L → pcr_idx e ≠ VIRTUAL_PCR →
  parse_efi_bsa_event X (event_data e) = Return ed →
  unresolved (device_path_to_unix_path X (device_path_vec ed)) = true →
  snd (process_event X args st e)
  = if verbose args
    then Done (set_errors
                 (tally_after (device_path_to_unix_path X (device_path_vec ed)) (errors st)) st)
    else SystemExit 1.
Proof.
  intros Ht HL Hv Hed Hp. unfold process_event, boot_application.
  rewrite HL, (bool_decide_eq_false_2 _ Hv), Ht.
  rewrite (bool_decide_eq_true_2 _ (eq_refl EFI_BOOT_SERVICES_APPLICATION)).
  rewrite Hed. cbn [call bind ret].
  destruct (device_path_to_unix_path X (device_path_vec ed)) as [p|ex]; simpl in Hp.
  - apply negb_true_iff in Hp. cbn [call bind ret try_except]. rewrite Hp.
    destruct (verbose_pcr args (pcr_idx e)), (verbose args); simpl; try reflexivity.
    all: destruct st; reflexivity.
  - destruct (verbose_pcr args (pcr_idx e)), (verbose args); reflexivity.
Qed.

Lemma process_event_ipl_not_found X args st e v :
  event_type e = IPL → pcr_idx e ∈ wanted_pcrs args →
  loader_get_next_cmdline X (last_efi_binary st) = Raise FileNotFoundError →
  this_pcrs st !! pcr_idx e = Some v → next_pcrs st !! pcr_idx e = Some v →
  snd (process_event X args st e)
  = Done (match pcr_extend_value e with
          | Some L =>
              if bool_decide (pcr_idx e = VIRTUAL_PCR) then st
              else {| this_pcrs := <[pcr_idx e := SHA1.digest (v ++ L)]> (this_pcrs st);
                      next_pcrs := <[pcr_idx e := SHA1.digest (v ++ L)]> (next_pcrs st);
                      last_efi_binary := last_efi_binary st; errors := errors st |}
          | None => st
          end).
Proof.
  intros Ht Hw Hl Hc Hn. unfold process_event, loader_cmdline.
  rewrite Ht, (bool_decide_eq_true_2 _ Hw).
  destruct (pcr_extend_value e) as [L|].
  2: { destruct (verbose_pcr args (pcr_idx e)); reflexivity. }
  destruct (bool_decide (pcr_idx e = VIRTUAL_PCR)).
  { destruct (verbose_pcr args (pcr_idx e)); reflexivity. }
  simpl. rewrite Hl.
  destruct (verbose_pcr args (pcr_idx e)), (verbose args); simpl;
    unfold fold_event, getitem; simpl;
    rewrite Hc; simpl; rewrite Hn; simpl; rewrite ?lookup_insert_eq; reflexivity.
Qed.

Lemma process_event_skipped X args st e :
  pcr_extend_value e = None ∨ pcr_idx e = VIRTUAL_PCR →
  snd (process_event X args st e) = Done st.
Proof.
  intros H. unfold process_event.
  destruct (pcr_extend_value e) as [L|].
  2: { destruct (verbose_pcr args (pcr_idx e)); reflexivity. }
  destruct H as [H|H]; [discriminate|].
  rewrite (bool_decide_eq_true_2 _ H).
  destruct (verbose_pcr args (pcr_idx e)); reflexivity.
Qed.

Lemma process_event_no_action X args st e :
  event_type e = NO_ACTION →
  (snd (process_event X args st e) = Done st
   ∨ snd (process_event X args st e) = Raised (KeyError (IntKey (pcr_idx e))))
  ∧ (verbose_pcr args (pcr_idx e) = false
     ∨ (is_Some (this_pcrs st !! pcr_idx e) ∧ is_Some (next_pcrs st !! pcr_idx e)) →
     snd (process_event X args st e) = Done st).
Proof.
  intros Ht. unfold process_event. rewrite Ht.
  destruct (pcr_extend_value e) as [L|]; simpl.
  2: { destruct (verbose_pcr args (pcr_idx e)); auto. }
  destruct (bool_decide (pcr_idx e = VIRTUAL_PCR)).
  { destruct (verbose_pcr args (pcr_idx e)); auto. }
  destruct (verbose_pcr args (pcr_idx e)); simpl; [|auto].
  unfold getitem.
  destruct (this_pcrs st !! pcr_idx e) as [c|]; simpl.
  2: { split; [auto|]. intros [[=]|[[? [=]] _]]. }
  destruct (next_pcrs st !! pcr_idx e) as [n|]; simpl.
  2: { split; [auto|]. intros [[=]|[_ [? [=]]]]. }
  auto.
Qed.

(** *** The banks stay populated *)

Lemma populated_init : populated init_empty_pcrs.
Proof.
  intros i. rewrite init_empty_pcrs_lookup. case_bool_decide as H.
  - split; [intros _; exact H|eauto].
  - split; [intros [? [=]]|intros; contradiction].
Qed.

Lemma populated_extended m idx d m' :
  populated m → extended m idx d m' → populated m'.
Proof.
  intros Hm (v & Hv & ->) i. rewrite lookup_insert_is_Some, <- (Hm i).
  split.
  - intros [<-|[_ H]]; [rewrite Hv; eauto|exact H].
  - intros H. destruct (decide (idx = i)); [left|right]; tauto.
Qed.

Lemma process_event_populated X args st e :
  populated (this_pcrs st) ∧ populated (next_pcrs st) →
  returns (process_event X args st e)
    (λ st', populated (this_pcrs st') ∧ populated (next_pcrs st')).
Proof.
  intros [Ht Hn]. eapply returns_weaken; [apply process_event_transition|].
  intros st' [[-> ->]|(L & d & _ & H1 & H2)]; [tauto|].
  split; [exact (populated_extended _ _ _ _ Ht H1)|exact (populated_extended _ _ _ _ Hn H2)].
Qed.

Lemma replay_populated X args events st :
  snd (replay X args events initial_pass) = Done st →
  populated (this_pcrs st) ∧ populated (next_pcrs st).
Proof.
  revert st. apply (returns_for_each _ (λ st, populated (this_pcrs st) ∧ populated (next_pcrs st))).
  - intros st e. apply process_event_populated.
  - split; exact populated_init.
Qed.

(** *** The earlier script *)

Lemma legacy_process_event_plain X quiet st e d c n :
  event_type e ≠ EFI_BOOT_SERVICES_APPLICATION →
  pcr_extend_value e = Some d →
  Lib.this_pcrs st !! pcr_idx e = Some c → Lib.next_pcrs st !! pcr_idx e = Some n →
  snd (Lib.process_event X quiet st e)
  = Done {| Lib.this_pcrs := <[pcr_idx e := SHA1.digest (c ++ d)]> (Lib.this_pcrs st);
            Lib.next_pcrs := <[pcr_idx e := SHA1.digest (n ++ d)]> (Lib.next_pcrs st) |}.
Proof.
  intros Ht Hd Hc Hn. unfold Lib.process_event, Lib.extend_value_of.
  rewrite Hd, (bool_decide_eq_false_2 _ Ht).
  destruct quiet; simpl; unfold getitem; simpl; rewrite Hc; simpl; rewrite Hn; simpl;
    rewrite ?lookup_insert_eq; reflexivity.
Qed.

Lemma legacy_patch_pcr8_other X st :
  returns (Lib.patch_pcr8 X st)
    (λ st', ∀ j, j ≠ 8 →
       Lib.this_pcrs st' !! j = Lib.this_pcrs st !! j
       ∧ Lib.next_pcrs st' !! j = Lib.next_pcrs st !! j).
Proof.
  unfold Lib.patch_pcr8. repeat returns_step.
  - intros j Hj. simpl. rewrite !lookup_insert_ne by congruence. split; reflexivity.
  - intros j _. split; reflexivity.
Qed.

(** ** The claims *)

(** C1. In every state the pass reaches and for every register 0..23, the
    extend of lines 101-103 replaces the register by SHA-1 of its value
    followed by the digest, in both banks, and leaves every other register
    alone. An entry changes the banks in no other way: after it, both banks
    are as before or both are extended at the entry's register, the current
    one with the logged value. Two consecutive plain entries on register 0
    with values [A] then [B] leave SHA1(SHA1(0^20 ++ A) ++ B) in register 0 of
    both banks; the earlier script gives the same, and its final patch of
    register 8 does not touch register 0. *)
Theorem C1_extend_chain (X : Externals) (args : Args) :
  (∀ events st idx d,
     snd (replay X args events initial_pass) = Done st → 0 ≤ idx < 24 →
     ∃ c n st',
       this_pcrs st !! idx = Some c ∧ next_pcrs st !! idx = Some n
       ∧ fold_event st idx d d = ([], Done st')
       ∧ this_pcrs st' !! idx = Some (SHA1.digest (c ++ d))
       ∧ next_pcrs st' !! idx = Some (SHA1.digest (n ++ d))
       ∧ ∀ j, j ≠ idx →
           this_pcrs st' !! j = this_pcrs st !! j ∧ next_pcrs st' !! j = next_pcrs st !! j)
  ∧ (∀ st e st',
       snd (process_event X args st e) = Done st' →
       (this_pcrs st' = this_pcrs st ∧ next_pcrs st' = next_pcrs st)
       ∨ (∃ L d, pcr_extend_value e = Some L
                 ∧ extended (this_pcrs st) (pcr_idx e) L (this_pcrs st')
                 ∧ extended (next_pcrs st) (pcr_idx e) d (next_pcrs st')))
  ∧ (∀ e1 e2 A B,
       plain_measurement args e1 = true → plain_measurement args e2 = true →
       pcr_idx e1 = 0 → pcr_idx e2 = 0 →
       pcr_extend_value e1 = Some A → pcr_extend_value e2 = Some B →
       ∃ st, snd (replay X args [e1; e2] initial_pass) = Done st
             ∧ this_pcrs st !! 0 = Some (SHA1.digest (SHA1.digest (repeat x00 20 ++ A) ++ B))
             ∧ next_pcrs st !! 0 = Some (SHA1.digest (SHA1.digest (repeat x00 20 ++ A) ++ B)))
  ∧ (∀ quiet e1 e2 A B,
       event_type e1 ≠ EFI_BOOT_SERVICES_APPLICATION →
       event_type e2 ≠ EFI_BOOT_SERVICES_APPLICATION →
       pcr_idx e1 = 0 → pcr_idx e2 = 0 →
       pcr_extend_value e1 = Some A → pcr_extend_value e2 = Some B →
       ∃ st, snd (Lib.replay X quiet [e1; e2] Lib.initial_banks) = Done st
             ∧ Lib.this_pcrs st !! 0
               = Some (SHA1.digest (SHA1.digest (repeat x00 20 ++ A) ++ B))
             ∧ Lib.next_pcrs st !! 0
               = Some (SHA1.digest (SHA1.digest (repeat x00 20 ++ A) ++ B))
             ∧ returns (Lib.patch_pcr8 X st)
                 (λ st', Lib.this_pcrs st' !! 0 = Lib.this_pcrs st !! 0
                         ∧ Lib.next_pcrs st' !! 0 = Lib.next_pcrs st !! 0)).
Proof.
  split; [|split; [|split]].
  - intros events st idx d Hst Hidx.
    destruct (replay_populated _ _ _ _ Hst) as [Ht Hn].
    destruct (proj2 (Ht idx) Hidx) as [c Hc]. destruct (proj2 (Hn idx) Hidx) as [n Hn'].
    eexists c, n, _. split; [exact Hc|]. split; [exact Hn'|].
    split; [exact (fold_event_spec _ _ _ _ _ _ Hc Hn')|].
    cbn [this_pcrs next_pcrs]. rewrite !lookup_insert_eq.
    split; [reflexivity|]. split; [reflexivity|].
    intros j Hj. rewrite !lookup_insert_ne by congruence. split; reflexivity.
  - intros st e st'. apply process_event_transition.
  - intros e1 e2 A B H1 H2 I1 I2 V1 V2.
    assert (Hz : init_empty_pcrs !! 0 = Some (repeat x00 20))
      by (rewrite init_empty_pcrs_lookup; reflexivity).
    unfold replay. cbn [for_each]. rewrite !snd_bind.
    rewrite (process_event_plain X args initial_pass e1 A (repeat x00 20) (repeat x00 20));
      [|assumption|assumption|rewrite I1; discriminate|rewrite I1; exact Hz..].
    rewrite snd_bind.
    erewrite (process_event_plain X args _ e2 B);
      [|assumption|assumption|rewrite I2; discriminate
       |rewrite I1, I2; cbn [this_pcrs next_pcrs]; apply lookup_insert_eq..].
    cbn [ret snd]. eexists. split; [reflexivity|].
    rewrite I2. cbn [this_pcrs next_pcrs]. rewrite !lookup_insert_eq. split; reflexivity.
  - intros quiet e1 e2 A B H1 H2 I1 I2 V1 V2.
    assert (Hz : Lib.this_pcrs Lib.initial_banks !! 0 = Some (repeat x00 20))
      by (rewrite legacy_initial_lookup; reflexivity).
    unfold Lib.replay. cbn [for_each]. rewrite !snd_bind.
    rewrite (legacy_process_event_plain X quiet Lib.initial_banks e1 A
               (repeat x00 20) (repeat x00 20));
      [|assumption|assumption|rewrite I1; exact Hz..].
    rewrite snd_bind.
    erewrite (legacy_process_event_plain X quiet _ e2 B);
      [|assumption|assumption
       |rewrite I1, I2; cbn [Lib.this_pcrs Lib.next_pcrs]; apply lookup_insert_eq..].
    cbn [ret snd]. eexists. split; [reflexivity|].
    rewrite I2. cbn [Lib.this_pcrs Lib.next_pcrs].
    split; [apply lookup_insert_eq|]. split; [apply lookup_insert_eq|].
    eapply returns_weaken; [apply legacy_patch_pcr8_other|].
    intros st' H. assert (H08 : (0:Z) ≠ 8) by discriminate. exact (H 0 H08).
Qed.

Lemma C1_extend_chain_witness :
  ∃ st,
    snd (replay (machine [] (Raise FileNotFoundError) (Raise FileNotFoundError))
           (options None None false false)
           [plain_event 0 (digest_of x11); plain_event 0 (digest_of x22)] initial_pass)
    = Done st
    ∧ this_pcrs st !! 0
      = Some (SHA1.digest (SHA1.digest (repeat x00 20 ++ digest_of x11) ++ digest_of x22))
    ∧ next_pcrs st !! 0
      = Some (SHA1.digest (SHA1.digest (repeat x00 20 ++ digest_of x11) ++ digest_of x22)).
Proof.
  apply (proj1 (proj2 (proj2 (C1_extend_chain _ _)))); reflexivity.
Defined.

(** The chain formula on the values of the specification, as hexadecimal
    text: SHA1(SHA1(0^20 ++ 0x11^20) ++ 0x22^20). *)
Example chain_formula_run :
  match snd (main (machine [plain_event 0 (digest_of x11); plain_event 0 (digest_of x22)]
                     (Raise FileNotFoundError) (Raise FileNotFoundError))
               (options None None false false)),
        snd (replay (machine [] (Raise FileNotFoundError) (Raise FileNotFoundError))
               (options None None false false)
               [plain_event 0 (digest_of x11); plain_event 0 (digest_of x22)] initial_pass)
  with
  | Done _, Done st =>
      hex <$> this_pcrs st !! 0 = Some "46b4464c04c4622cca40e7fa48bb2c729ebc301d"%string
      ∧ hex <$> next_pcrs st !! 0 = Some "46b4464c04c4622cca40e7fa48bb2c729ebc301d"%string
  | _, _ => False
  end.
Proof. vm_compute. split; reflexivity. Qed.

(** C3. A boot application entry that passes the filter, whose device path
    resolves to a non-empty path [p] and whose file hashes to [P]: [p]
    becomes the last EFI binary, the current bank folds the logged value [L]
    and the predicted bank folds [P], both at the entry's register, and no
    other register changes in either bank. *)
Theorem C3_boot_application_divergence (X : Externals) (args : Args) (st : Pass)
    (e : Event) (L : bytes) (ed : EfiBsaEvent) (p : string) (P c n : bytes) :
  event_type e = EFI_BOOT_SERVICES_APPLICATION →
  pcr_extend_value e = Some L → pcr_idx e ≠ VIRTUAL_PCR →
  parse_efi_bsa_event X (event_data e) = Return ed →
  device_path_to_unix_path X (device_path_vec ed) = Return (Some p) →
  p ≠ EmptyString →
  hash_pecoff X (Some p) "sha1" = Return P →
  this_pcrs st !! pcr_idx e = Some c → next_pcrs st !! pcr_idx e = Some n →
  ∃ st',
    snd (process_event X args st e) = Done st'
    ∧ last_efi_binary st' = Some p
    ∧ this_pcrs st' !! pcr_idx e = Some (SHA1.digest (c ++ L))
    ∧ next_pcrs st' !! pcr_idx e = Some (SHA1.digest (n ++ P))
    ∧ (∀ j, j ≠ pcr_idx e →
         this_pcrs st' !! j = this_pcrs st !! j ∧ next_pcrs st' !! j = next_pcrs st !! j)
    ∧ errors st' = errors st.
Proof.
  intros Ht HL Hv Hed Hp Hne HP Hc Hn.
  eexists. split.
  - exact (process_event_boot_resolved X args st e L ed (Some p) P c n
             Ht HL Hv Hed Hp (truthy_Some p Hne) HP Hc Hn).
  - cbn [this_pcrs next_pcrs last_efi_binary errors]. rewrite !lookup_insert_eq.
    repeat split; try reflexivity.
    all: rewrite lookup_insert_ne by congruence; reflexivity.
Qed.

Lemma C3_boot_application_divergence_witness :
  ∃ st',
    snd (process_event
           (machine [] (Return (Some "/boot/EFI/loader.efi"%string)) (Raise FileNotFoundError))
           (options None None false true) initial_pass (boot_event 4 (digest_of x11)))
    = Done st'
    ∧ last_efi_binary st' = Some "/boot/EFI/loader.efi"%string
    ∧ this_pcrs st' !! 4 = Some (SHA1.digest (repeat x00 20 ++ digest_of x11))
    ∧ next_pcrs st' !! 4 = Some (SHA1.digest (repeat x00 20 ++ digest_of x33))
    ∧ (∀ j, j ≠ 4 →
         this_pcrs st' !! j = this_pcrs initial_pass !! j
         ∧ next_pcrs st' !! j = next_pcrs initial_pass !! j)
    ∧ errors st' = errors initial_pass.
Proof.
  apply (C3_boot_application_divergence
           (machine [] (Return (Some "/boot/EFI/loader.efi"%string)) (Raise FileNotFoundError))
           (options None None false true) initial_pass (boot_event 4 (digest_of x11))
           (digest_of x11) {| device_path_vec := [] |} "/boot/EFI/loader.efi"
           (digest_of x33) (repeat x00 20) (repeat x00 20));
    try reflexivity; discriminate.
Defined.

(** C5. An IPL entry on a requested register for which the loader predictor
    raises FileNotFoundError, with the two banks equal at that register: the
    entry is processed without error, the tally and the last EFI binary are
    as before, and the two banks are equal at the register afterwards; when
    the entry passes the filter both hold SHA-1 of the old value followed by
    the logged value. *)
Theorem C5_ipl_fallback (X : Externals) (args : Args) (st : Pass) (e : Event) (v : bytes) :
  event_type e = IPL → pcr_idx e ∈ wanted_pcrs args →
  loader_get_next_cmdline X (last_efi_binary st) = Raise FileNotFoundError →
  this_pcrs st !! pcr_idx e = Some v → next_pcrs st !! pcr_idx e = Some v →
  ∃ st',
    snd (process_event X args st e) = Done st'
    ∧ next_pcrs st' !! pcr_idx e = this_pcrs st' !! pcr_idx e
    ∧ errors st' = errors st
    ∧ last_efi_binary st' = last_efi_binary st
    ∧ (∀ L, pcr_extend_value e = Some L → pcr_idx e ≠ VIRTUAL_PCR →
         this_pcrs st' !! pcr_idx e = Some (SHA1.digest (v ++ L))
         ∧ next_pcrs st' !! pcr_idx e = Some (SHA1.digest (v ++ L))).
Proof.
  intros Ht Hw Hl Hc Hn. eexists. split.
  - exact (process_event_ipl_not_found X args st e v Ht Hw Hl Hc Hn).
  - destruct (pcr_extend_value e) as [L|].
    + case_bool_decide as Hv.
      * split; [congruence|]. split; [reflexivity|]. split; [reflexivity|].
        intros L' _ Hne. contradiction.
      * cbn [this_pcrs next_pcrs last_efi_binary errors]. rewrite !lookup_insert_eq.
        split; [reflexivity|]. split; [reflexivity|]. split; [reflexivity|].
        intros L' [= <-] _. split; reflexivity.
    + split; [congruence|]. split; [reflexivity|]. split; [reflexivity|].
      intros L' [=].
Qed.

Lemma C5_ipl_fallback_witness :
  ∃ st',
    snd (process_event (machine [] (Raise FileNotFoundError) (Raise FileNotFoundError))
           (options (Some [8]) None false true) initial_pass (ipl_event 8 (digest_of x11)))
    = Done st'
    ∧ next_pcrs st' !! 8 = this_pcrs st' !! 8
    ∧ errors st' = 0
    ∧ last_efi_binary st' = None
    ∧ (∀ L, Some (digest_of x11) = Some L → 8 ≠ VIRTUAL_PCR →
         this_pcrs st' !! 8 = Some (SHA1.digest (repeat x00 20 ++ L))
         ∧ next_pcrs st' !! 8 = Some (SHA1.digest (repeat x00 20 ++ L))).
Proof.
  apply (C5_ipl_fallback (machine [] (Raise FileNotFoundError) (Raise FileNotFoundError))
           (options (Some [8]) None false true) initial_pass (ipl_event 8 (digest_of x11))
           (repeat x00 20)); try reflexivity.
  apply list_elem_of_here.
Defined.

(** C6. An entry without an extend value and an entry on the virtual
    register leave the whole state as it was. A NO_ACTION entry leaves it as
    it was too; the only other way it can end is a KeyError from the trace
    lines 106-107, when the entry is printed and its index is no register of
    the banks. No such entry changes a bank. *)
Theorem C6_skipped_entries (X : Externals) (args : Args) (st : Pass) (e : Event) :
  pcr_extend_value e = None ∨ pcr_idx e = VIRTUAL_PCR ∨ event_type e = NO_ACTION →
  (snd (process_event X args st e) = Done st
   ∨ snd (process_event X args st e) = Raised (KeyError (IntKey (pcr_idx e))))
  ∧ (pcr_extend_value e = None ∨ pcr_idx e = VIRTUAL_PCR
     ∨ verbose_pcr args (pcr_idx e) = false
     ∨ (is_Some (this_pcrs st !! pcr_idx e) ∧ is_Some (next_pcrs st !! pcr_idx e)) →
     snd (process_event X args st e) = Done st)
  ∧ (∀ st', snd (process_event X args st e) = Done st' →
       this_pcrs st' = this_pcrs st ∧ next_pcrs st' = next_pcrs st).
Proof.
  intros H.
  assert (Hskip : pcr_extend_value e = None ∨ pcr_idx e = VIRTUAL_PCR →
                  snd (process_event X args st e) = Done st)
    by apply process_event_skipped.
  assert (Hor : snd (process_event X args st e) = Done st
                ∨ snd (process_event X args st e) = Raised (KeyError (IntKey (pcr_idx e)))).
  { destruct H as [H|[H|H]]; [left; apply Hskip; tauto..|].
    apply (process_event_no_action X args st e H). }
  split; [exact Hor|]. split.
  - intros [H'|[H'|H']]; [apply Hskip; tauto..|].
    destruct H as [H|[H|H]]; [apply Hskip; tauto..|].
    apply (process_event_no_action X args st e H). exact H'.
  - intros st' Hst'. destruct Hor as [Hd|Hr]; rewrite Hst' in *.
    + injection Hd as ->. split; reflexivity.
    + discriminate.
Qed.

Lemma C6_skipped_entries_witness :
  snd (process_event (machine [] (Raise FileNotFoundError) (Raise FileNotFoundError))
         (options None None false true) initial_pass (no_action_event 3 (digest_of x11)))
  = Done initial_pass.
Proof.
  apply (proj1 (proj2 (C6_skipped_entries
                         (machine [] (Raise FileNotFoundError) (Raise FileNotFoundError))
                         (options None None false true) initial_pass
                         (no_action_event 3 (digest_of x11))
                         (or_intror (or_intror eq_refl))))).
  right. right. right. split; vm_compute; eauto.
Defined.

(** *** Where the two banks can part *)

Ltac use_facts_in H :=
  repeat match goal with
    | E : bool_decide _ = _ |- _ => rewrite E in H
    | E : _ && _ = _ |- _ => tryif constr_eq E H then fail else rewrite E in H
    | E : truthy _ = _ |- _ => rewrite E in H
    | E : pcr_extend_value _ = _ |- _ => rewrite E in H
    | E : _ = Return _ |- _ => rewrite E in H
    end.

Lemma process_event_agreement X args st e :
  returns (process_event X args st e)
    (λ st', ∀ i,
       next_pcrs st !! i = this_pcrs st !! i →
       (pcr_idx e = i → divergent X args st e = false) →
       next_pcrs st' !! i = this_pcrs st' !! i).
Proof.
  unfold_event. repeat returns_step.
  all: intros i Heq Hdiv; simpl in *.
  all: try exact Heq.
  all: destruct (decide (pcr_idx e = i)) as [<-|Hi];
    [|rewrite !lookup_insert_ne by exact Hi; exact Heq].
  all: specialize (Hdiv eq_refl); rewrite !lookup_insert_eq.
  all: match goal with
       | Ht : this_pcrs _ !! _ = Some _, Hn : next_pcrs _ !! _ = Some _ |- _ =>
           rewrite Ht, Hn in Heq; injection Heq as ->
       end.
  all: try reflexivity.
  all: exfalso;
    unfold divergent, measured, rehashed_boot_application, predicted_cmdline in Hdiv;
    use_facts_in Hdiv; simpl in Hdiv.
  all: discriminate.
Qed.

Lemma replay_agreement X args i events :
  ∀ st st',
    snd (replay X args events st) = Done st' →
    next_pcrs st !! i = this_pcrs st !! i →
    touched_divergent X args i st events = false →
    next_pcrs st' !! i = this_pcrs st' !! i.
Proof.
  induction events as [|e events IH]; intros st st' Hrun Heq Hdiv.
  - injection Hrun as <-. exact Heq.
  - unfold replay in Hrun. cbn [for_each] in Hrun.
    apply bind_Done_inv in Hrun as (st1 & Hstep & Hrest).
    cbn [touched_divergent] in Hdiv. rewrite Hstep in Hdiv.
    apply orb_false_iff in Hdiv as [Hhere Hlater].
    apply (IH st1 st' Hrest); [|exact Hlater].
    apply (process_event_agreement X args st e st1 Hstep i Heq).
    intros Hi. rewrite (bool_decide_eq_true_2 _ Hi) in Hhere. exact Hhere.
Qed.

(** C7. After any part of the log has been processed, the predicted bank
    equals the current bank at register [i], unless one of the processed
    entries touches [i] and was classified as divergent: a boot application
    whose path resolved and was hashed again, or an IPL entry on a requested
    register whose command line was predicted. *)
Theorem C7_banks_agree (X : Externals) (args : Args) (processed : list Event)
    (st : Pass) (i : Z) :
  snd (replay X args processed initial_pass) = Done st →
  touched_divergent X args i initial_pass processed = false →
  next_pcrs st !! i = this_pcrs st !! i.
Proof.
  intros Hrun Hdiv.
  exact (replay_agreement X args i processed initial_pass st Hrun eq_refl Hdiv).
Qed.

Lemma C7_banks_agree_witness :
  ∃ st,
    snd (replay (machine [] (Return (Some "/boot/EFI/loader.efi"%string)) (Return "quiet"%string))
           (options (Some [4; 8]) None false false)
           [plain_event 0 (digest_of x11); boot_event 4 (digest_of x22);
            ipl_event 8 (digest_of x11); plain_event 7 (digest_of x22)]
           initial_pass) = Done st
    ∧ next_pcrs st !! 7 = this_pcrs st !! 7
    ∧ next_pcrs st !! 4 ≠ this_pcrs st !! 4
    ∧ next_pcrs st !! 8 ≠ this_pcrs st !! 8.
Proof.
  eexists. split; [vm_compute; reflexivity|]. split.
  - apply (C7_banks_agree
             (machine [] (Return (Some "/boot/EFI/loader.efi"%string)) (Return "quiet"%string))
             (options (Some [4; 8]) None false false)
             [plain_event 0 (digest_of x11); boot_event 4 (digest_of x22);
              ipl_event 8 (digest_of x11); plain_event 7 (digest_of x22)]);
      vm_compute; reflexivity.
  - split; vm_compute; intros [=].
Defined.


(** *** After the pass *)

Lemma written_app (t1 t2 : list io) : written (t1 ++ t2) = written t1 ++ written t2.
Proof.
  induction t1 as [|o t1 IH]; [reflexivity|].
  destruct o; simpl; rewrite ?IH, ?app_assoc; reflexivity.
Qed.

Lemma written_nil {A} (m : M A) : emits_only not_file_output m → written (fst m) = [].
Proof.
  unfold emits_only. induction 1 as [|o t Ho _ IH]; [reflexivity|].
  destruct o; try discriminate Ho; exact IH.
Qed.

Lemma not_result_not_file {A} (m : M A) :
  emits_only not_result_output m → emits_only not_file_output m.
Proof.
  unfold emits_only. intros H. eapply Forall_impl; [exact H|]. intros o Ho.
  destruct o; try discriminate Ho; reflexivity.
Qed.

Lemma final_table_not_file args st : emits_only not_file_output (final_table args st).
Proof. unfold final_table, print. repeat emits_only_step; reflexivity. Qed.

Lemma registers_lookup (m : gmap Z bytes) (l : list Z) :
  populated m → registers l → Forall (λ idx, is_Some (m !! idx)) l.
Proof. intros Hm Hl. eapply Forall_impl; [exact Hl|]. intros idx H. apply Hm, H. Qed.

Lemma compare_rows (real this : gmap Z bytes) (l : list Z) (n : Z) :
  Forall (λ idx, is_Some (real !! idx)) l → Forall (λ idx, is_Some (this !! idx)) l →
  snd (for_each
         (λ errors idx,
            do real <- getitem real idx;
            do this <- getitem this idx;
            let '(errors, good) :=
              if bool_decide (real = this) then (errors, true) else (errors + 1, false) in
            do_ print (CompareRow idx real this good);
            ret errors)
         l n)
  = Done (n + Z.of_nat (length (mismatches real this l))).
Proof.
  intros Hr Ht. revert n. induction l as [|idx l IH]; intros n.
  - simpl. rewrite Z.add_0_r. reflexivity.
  - apply Forall_cons in Hr as [[r Hr] Hr']. apply Forall_cons in Ht as [[t Ht] Ht'].
    cbn [for_each]. rewrite snd_bind. unfold getitem at 1 2. rewrite Hr, Ht. cbn [bind ret].
    unfold mismatches. rewrite filter_cons, Hr, Ht.
    case_bool_decide as Heq; simpl.
    + rewrite decide_False by (intros H; apply H; congruence).
      apply (IH Hr' Ht').
    + rewrite decide_True by congruence.
      rewrite (IH Hr' Ht'). f_equal. unfold mismatches. simpl length. lia.
Qed.

Lemma compare_live_exit X args st real :
  read_current_pcrs X (wanted_pcrs args) = Return real →
  Forall (λ idx, is_Some (real !! idx)) (wanted_pcrs args) →
  Forall (λ idx, is_Some (this_pcrs st !! idx)) (wanted_pcrs args) →
  snd (compare_live X args st)
  = SystemExit (if decide (mismatches real (this_pcrs st) (wanted_pcrs args) = []) then 0 else 1).
Proof.
  intros Hread Hr Ht. unfold compare_live. rewrite Hread.
  repeat (rewrite snd_bind; cbn [print emit call ret snd]).
  rewrite (compare_rows real (this_pcrs st) _ 0 Hr Ht). cbn [exit snd].
  destruct (mismatches real (this_pcrs st) (wanted_pcrs args)) as [|x l]; reflexivity.
Qed.

Lemma compare_live_ends X args st :
  (∃ s, snd (compare_live X args st) = SystemExit s ∧ (s = 0 ∨ s = 1))
  ∨ (∃ e, snd (compare_live X args st) = Raised e).
Proof.
  unfold compare_live. rewrite !snd_bind. cbn [print emit snd].
  destruct (read_current_pcrs X (wanted_pcrs args)) as [real|e]; cbn [call ret raise snd];
    [|right; eauto].
  repeat (rewrite snd_bind; cbn [print emit call ret snd]).
  match goal with |- context [snd (for_each ?f ?l ?n)] => destruct (snd (for_each f l n)) as [k|e|s] eqn:Hrows end.
  - left. cbn [exit snd]. destruct (k >? 0); eauto.
  - right. eauto.
  - exfalso. revert Hrows. generalize 0.
    induction (wanted_pcrs args) as [|idx l IH]; intros n; [discriminate|].
    cbn [for_each]. rewrite snd_bind, !snd_bind. unfold getitem.
    destruct (real !! idx); [|discriminate]. cbn [ret snd]. rewrite snd_bind.
    destruct (this_pcrs st !! idx); [|discriminate]. cbn [ret snd].
    case_bool_decide; rewrite snd_bind; cbn [print emit snd]; apply IH.
Qed.

Lemma final_table_returns args st :
  Forall (λ idx, is_Some (this_pcrs st !! idx)) (wanted_pcrs args) →
  Forall (λ idx, is_Some (next_pcrs st !! idx)) (wanted_pcrs args) →
  snd (final_table args st) = Done tt.
Proof.
  intros Ht Hn. unfold final_table. repeat (rewrite snd_bind; cbn [print emit snd]).
  induction (wanted_pcrs args) as [|idx l IH]; [reflexivity|].
  apply Forall_cons in Ht as [[t Ht] Ht']. apply Forall_cons in Hn as [[n Hn] Hn'].
  cbn [for_]. rewrite snd_bind. unfold getitem at 1 2. rewrite Ht, Hn.
  cbn [bind ret print emit snd app]. exact (IH Ht' Hn').
Qed.

Lemma write_rows (m : gmap Z bytes) (l : list Z) :
  Forall (λ idx, is_Some (m !! idx)) l →
  for_ (λ idx, do next <- getitem m idx; emit (FileWrite next)) l
  = (map (λ idx, FileWrite (default [] (m !! idx))) l, Done tt).
Proof.
  induction 1 as [|idx l [v Hv] _ IH]; [reflexivity|].
  cbn [for_ map]. rewrite IH. unfold getitem. rewrite Hv. reflexivity.
Qed.

Lemma written_rows (m : gmap Z bytes) (l : list Z) :
  written (map (λ idx, FileWrite (default [] (m !! idx))) l) = digests_of m l.
Proof.
  unfold digests_of. induction l as [|idx l IH]; [reflexivity|].
  simpl. rewrite IH. reflexivity.
Qed.

Lemma write_output_spec args path st :
  Forall (λ idx, is_Some (next_pcrs st !! idx)) (wanted_pcrs args) →
  write_output args path st
  = (OpenWrite path :: map (λ idx, FileWrite (default [] (next_pcrs st !! idx))) (wanted_pcrs args),
     Done tt).
Proof. intros H. unfold write_output. rewrite (write_rows _ _ H). reflexivity. Qed.

(** What [report] does when no comparison was asked for. *)
Lemma report_without_compare X args st :
  compare args = false →
  Forall (λ idx, is_Some (this_pcrs st !! idx)) (wanted_pcrs args) →
  Forall (λ idx, is_Some (next_pcrs st !! idx)) (wanted_pcrs args) →
  snd (report X args st) = (if decide (errors st = 0) then Done tt else SystemExit 1)
  ∧ (errors st = 0 →
     written (fst (report X args st))
     = if truthy (output args) then digests_of (next_pcrs st) (wanted_pcrs args) else [])
  ∧ (errors st = 0 → ∀ path, output args = Some path → truthy (output args) = true →
     OpenWrite path ∈ fst (report X args st)).
Proof.
  intros Hc Ht Hn. unfold report. rewrite Hc.
  assert (Htab : snd (when (verbose args || negb (truthy (output args))) (final_table args st))
                 = Done tt).
  { destruct (verbose args || negb (truthy (output args))); [|reflexivity].
    exact (final_table_returns args st Ht Hn). }
  assert (Hquiet : written (fst (when (verbose args || negb (truthy (output args)))
                                   (final_table args st))) = []).
  { apply written_nil, emits_only_when, final_table_not_file. }
  repeat (rewrite snd_bind || rewrite fst_bind). cbn [ret snd fst app]. rewrite Htab.
  rewrite !written_app, Hquiet.
  destruct (decide (errors st = 0)) as [He|He].
  - rewrite (bool_decide_eq_false_2 (errors st ≠ 0)) by tauto. cbn [ret snd fst app written].
    destruct (output args) as [path|] eqn:Hout.
    2: { split; [reflexivity|]. split; [reflexivity|]. intros _ ? [=]. }
    destruct (truthy (Some path)) eqn:Htr.
    + rewrite (write_output_spec args path st Hn). cbn [fst snd written].
      split; [reflexivity|]. split; [intros _; apply written_rows|].
      intros _ path' [= <-] _. apply elem_of_app. right. apply list_elem_of_here.
    + split; [reflexivity|]. split; [reflexivity|]. intros _ ? _ [=].
  - rewrite (bool_decide_eq_true_2 (errors st ≠ 0)) by exact He.
    rewrite snd_bind. cbn [print_stderr emit exit snd].
    split; [reflexivity|]. split; intros; contradiction.
Qed.

Lemma report_with_compare X args st :
  compare args = true →
  snd (report X args st) = snd (compare_live X args st)
  ∧ fst (report X args st) = fst (compare_live X args st).
Proof.
  intros Hc. unfold report. rewrite Hc. rewrite snd_bind, fst_bind.
  destruct (compare_live_ends X args st) as [(s & Hs & _)|(e & He)].
  - rewrite Hs. split; [reflexivity|apply app_nil_r].
  - rewrite He. split; [reflexivity|apply app_nil_r].
Qed.

(** *** The whole run *)

Lemma main_after_replay X args st :
  snd (replay X args (enum_log_entries X (log_path args)) initial_pass) = Done st →
  snd (main X args) = snd (report X args st)
  ∧ fst (main X args)
    = fst (replay X args (enum_log_entries X (log_path args)) initial_pass)
      ++ fst (report X args st).
Proof. intros H. unfold main. rewrite snd_bind, fst_bind, H. split; reflexivity. Qed.

Lemma main_aborted X args s :
  snd (replay X args (enum_log_entries X (log_path args)) initial_pass) = SystemExit s →
  snd (main X args) = SystemExit s
  ∧ fst (main X args) = fst (replay X args (enum_log_entries X (log_path args)) initial_pass).
Proof.
  intros H. unfold main. rewrite snd_bind, fst_bind, H. split; [reflexivity|apply app_nil_r].
Qed.

(** An unresolved boot application in a run without [--verbose]. *)
Lemma replay_strict_abort X args e L ed before after st :
  event_type e = EFI_BOOT_SERVICES_APPLICATION →
  pcr_extend_value e = Some L → pcr_idx e ≠ VIRTUAL_PCR →
  parse_efi_bsa_event X (event_data e) = Return ed →
  unresolved (device_path_to_unix_path X (device_path_vec ed)) = true →
  verbose args = false →
  snd (replay X args before initial_pass) = Done st →
  snd (replay X args (before ++ e :: after) initial_pass) = SystemExit 1.
Proof.
  intros Ht HL Hv Hed Hun Hverb Hbefore. unfold replay in *.
  rewrite for_each_app, snd_bind, Hbefore. cbn [for_each]. rewrite snd_bind.
  rewrite (process_event_boot_unresolved X args st e L ed Ht HL Hv Hed Hun), Hverb.
  reflexivity.
Qed.

Lemma main_no_result_output_before_report X args :
  (∀ st, snd (replay X args (enum_log_entries X (log_path args)) initial_pass) ≠ Done st) →
  emits_only not_result_output (main X args).
Proof.
  intros H. unfold emits_only, main. rewrite fst_bind.
  destruct (snd (replay X args (enum_log_entries X (log_path args)) initial_pass)) as [st|e|s] eqn:E.
  - exfalso. exact (H st eq_refl).
  - rewrite app_nil_r. apply replay_no_result_output.
  - rewrite app_nil_r. apply replay_no_result_output.
Qed.

Lemma mismatches_nil (real this : gmap Z bytes) (l : list Z) :
  mismatches real this l = [] ↔ Forall (λ idx, real !! idx = this !! idx) l.
Proof.
  unfold mismatches. induction l as [|idx l IH].
  - split; [constructor|reflexivity].
  - rewrite filter_cons, Forall_cons. destruct (decide (real !! idx ≠ this !! idx)) as [H|H].
    + split; [discriminate|]. intros [Heq _]. contradiction.
    + rewrite IH. split; [|tauto]. intros Hl. split; [|exact Hl].
      destruct (decide (real !! idx = this !! idx)); [assumption|contradiction].
Qed.

Lemma main_exit_compare X args st real :
  snd (replay X args (enum_log_entries X (log_path args)) initial_pass) = Done st →
  registers (wanted_pcrs args) →
  compare args = true →
  read_current_pcrs X (wanted_pcrs args) = Return real →
  Forall (λ idx, is_Some (real !! idx)) (wanted_pcrs args) →
  exit_status (snd (main X args))
  = if decide (Forall (λ idx, real !! idx = this_pcrs st !! idx) (wanted_pcrs args))
    then 0 else 1.
Proof.
  intros Hrun Hreg Hc Hread Hreal.
  destruct (replay_populated _ _ _ _ Hrun) as [Hpt _].
  rewrite (proj1 (main_after_replay X args st Hrun)).
  rewrite (proj1 (report_with_compare X args st Hc)).
  rewrite (compare_live_exit X args st real Hread Hreal (registers_lookup _ _ Hpt Hreg)).
  cbn [exit_status].
  destruct (decide (mismatches real (this_pcrs st) (wanted_pcrs args) = [])) as [Hm|Hm].
  - rewrite decide_True by (apply mismatches_nil; exact Hm). reflexivity.
  - rewrite decide_False by (rewrite <- mismatches_nil; exact Hm). reflexivity.
Qed.

(** ** The claims on failures, exit status and output *)

(** C4, as stated, fails: the second unresolved boot application of a
    verbose run leaves the tally at 1, which is not the tally before plus
    one. *)
Lemma C4_tally_not_incremented :
  ∃ st1 st2,
    unresolved (Raise (OtherException "no volume")) = true
    ∧ snd (process_event (machine [] (Raise (OtherException "no volume")) (Raise FileNotFoundError))
             (options None None false true) initial_pass (boot_event 4 (digest_of x11)))
      = Done st1
    ∧ snd (process_event (machine [] (Raise (OtherException "no volume")) (Raise FileNotFoundError))
             (options None None false true) st1 (boot_event 4 (digest_of x11)))
      = Done st2
    ∧ errors st1 = 1
    ∧ errors st2 ≠ errors st1 + 1.
Proof.
  eexists _, _. split; [reflexivity|].
  split; [vm_compute; reflexivity|]. split; [vm_compute; reflexivity|].
  split; [reflexivity|]. vm_compute. intros [=].
Qed.

(** C4, amended. A boot application entry that passes the filter and whose
    device path does not resolve (the resolver raised, or gave no path): with
    [--verbose] the entry is not folded, the pass continues, and the tally is
    set to 1 if the resolver raised and left as it was otherwise; without
    [--verbose] the run ends there with exit status 1, and neither the final
    table nor the output file is produced. *)
Theorem C4_unresolved_boot_application (X : Externals) (args : Args) (e : Event)
    (L : bytes) (ed : EfiBsaEvent) :
  event_type e = EFI_BOOT_SERVICES_APPLICATION →
  pcr_extend_value e = Some L → pcr_idx e ≠ VIRTUAL_PCR →
  parse_efi_bsa_event X (event_data e) = Return ed →
  unresolved (device_path_to_unix_path X (device_path_vec ed)) = true →
  (verbose args = true →
   ∀ st, ∃ st',
     snd (process_event X args st e) = Done st'
     ∧ this_pcrs st' = this_pcrs st ∧ next_pcrs st' = next_pcrs st
     ∧ last_efi_binary st' = last_efi_binary st
     ∧ errors st'
       = tally_after (device_path_to_unix_path X (device_path_vec ed)) (errors st))
  ∧ (verbose args = false →
     ∀ before after st,
       enum_log_entries X (log_path args) = before ++ e :: after →
       snd (replay X args before initial_pass) = Done st →
       snd (main X args) = SystemExit 1
       ∧ exit_status (snd (main X args)) = 1
       ∧ emits_only not_result_output (main X args)).
Proof.
  intros Ht HL Hv Hed Hun. split.
  - intros Hverb st. eexists. split.
    + rewrite (process_event_boot_unresolved X args st e L ed Ht HL Hv Hed Hun), Hverb.
      reflexivity.
    + repeat split; reflexivity.
  - intros Hverb before after st Hlog Hbefore.
    pose proof (replay_strict_abort X args e L ed before after st
                  Ht HL Hv Hed Hun Hverb Hbefore) as Habort.
    rewrite <- Hlog in Habort.
    destruct (main_aborted X args 1 Habort) as [Hmain _].
    rewrite Hmain. split; [reflexivity|]. split; [reflexivity|].
    apply main_no_result_output_before_report. intros st'. rewrite Habort. discriminate.
Qed.

Lemma C4_unresolved_boot_application_witness :
  (∃ st',
     snd (process_event (machine [] (Raise (OtherException "no volume")) (Raise FileNotFoundError))
            (options None None false true) initial_pass (boot_event 4 (digest_of x11)))
     = Done st'
     ∧ this_pcrs st' = this_pcrs initial_pass ∧ next_pcrs st' = next_pcrs initial_pass
     ∧ last_efi_binary st' = None
     ∧ errors st' = 1)
  ∧ snd (main (machine [plain_event 0 (digest_of x22); boot_event 4 (digest_of x11)]
                 (Return None) (Raise FileNotFoundError))
           (options None (Some "pcrs.bin"%string) false false))
    = SystemExit 1.
Proof.
  split.
  - apply (proj1 (C4_unresolved_boot_application
                    (machine [] (Raise (OtherException "no volume")) (Raise FileNotFoundError))
                    (options None None false true) (boot_event 4 (digest_of x11))
                    (digest_of x11) {| device_path_vec := [] |}
                    eq_refl eq_refl ltac:(discriminate) eq_refl eq_refl) eq_refl initial_pass).
  - eapply (proj2 (C4_unresolved_boot_application
                     (machine [plain_event 0 (digest_of x22); boot_event 4 (digest_of x11)]
                        (Return None) (Raise FileNotFoundError))
                     (options None (Some "pcrs.bin"%string) false false)
                     (boot_event 4 (digest_of x11))
                     (digest_of x11) {| device_path_vec := [] |}
                     eq_refl eq_refl ltac:(discriminate) eq_refl eq_refl) eq_refl
              [plain_event 0 (digest_of x22)] [] _ eq_refl).
    vm_compute. reflexivity.
Defined.

(** C8, as stated, fails: in a verbose run with [--compare] and without
    [--output], an unresolved boot application makes the tally nonzero, and
    yet the exit status is 0 when the live registers equal the computed
    ones. *)
Lemma C8_tally_ignored_when_comparing :
  ∃ st,
    snd (replay (machine [boot_event 4 (digest_of x11)]
                   (Raise (OtherException "no volume")) (Raise FileNotFoundError))
           (options None None true true) [boot_event 4 (digest_of x11)] initial_pass)
    = Done st
    ∧ errors st ≠ 0
    ∧ truthy (output (options None None true true)) = false
    ∧ exit_status
        (snd (main (machine [boot_event 4 (digest_of x11)]
                      (Raise (OtherException "no volume")) (Raise FileNotFoundError))
                (options None None true true)))
      = 0.
Proof.
  eexists. split; [vm_compute; reflexivity|].
  split; [vm_compute; intros [=]|]. split; [reflexivity|]. vm_compute. reflexivity.
Qed.

(** C8, amended. With the requested indices registers 0..23: in compare
    mode, once the live registers were read, the exit status is 0 when every
    requested live value equals the computed current value and 1 otherwise,
    whatever the tally of the pass; without [--compare] it is 0 when the
    tally is zero and 1 otherwise, whether or not an output file was
    requested; and an unresolved boot application in a run without
    [--verbose] gives exit status 1. *)
Theorem C8_exit_status (X : Externals) (args : Args) :
  (∀ st real,
     snd (replay X args (enum_log_entries X (log_path args)) initial_pass) = Done st →
     registers (wanted_pcrs args) →
     compare args = true →
     read_current_pcrs X (wanted_pcrs args) = Return real →
     Forall (λ idx, is_Some (real !! idx)) (wanted_pcrs args) →
     exit_status (snd (main X args))
     = if decide (Forall (λ idx, real !! idx = this_pcrs st !! idx) (wanted_pcrs args))
       then 0 else 1)
  ∧ (∀ st,
       snd (replay X args (enum_log_entries X (log_path args)) initial_pass) = Done st →
       registers (wanted_pcrs args) →
       compare args = false →
       exit_status (snd (main X args)) = if decide (errors st = 0) then 0 else 1)
  ∧ (∀ e L ed before after st,
       event_type e = EFI_BOOT_SERVICES_APPLICATION →
       pcr_extend_value e = Some L → pcr_idx e ≠ VIRTUAL_PCR →
       parse_efi_bsa_event X (event_data e) = Return ed →
       unresolved (device_path_to_unix_path X (device_path_vec ed)) = true →
       verbose args = false →
       enum_log_entries X (log_path args) = before ++ e :: after →
       snd (replay X args before initial_pass) = Done st →
       exit_status (snd (main X args)) = 1).
Proof.
  split; [|split].
  - intros st real. apply main_exit_compare.
  - intros st Hrun Hreg Hc.
    destruct (replay_populated _ _ _ _ Hrun) as [Hpt Hpn].
    rewrite (proj1 (main_after_replay X args st Hrun)).
    rewrite (proj1 (report_without_compare X args st Hc
                      (registers_lookup _ _ Hpt Hreg) (registers_lookup _ _ Hpn Hreg))).
    destruct (decide (errors st = 0)); reflexivity.
  - intros e L ed before after st Ht HL Hv Hed Hun Hverb Hlog Hbefore.
    pose proof (replay_strict_abort X args e L ed before after st
                  Ht HL Hv Hed Hun Hverb Hbefore) as Habort.
    rewrite <- Hlog in Habort.
    rewrite (proj1 (main_aborted X args 1 Habort)). reflexivity.
Qed.

Lemma C8_exit_status_witness :
  exit_status
    (snd (main (machine [boot_event 4 (digest_of x11)]
                  (Raise (OtherException "no volume")) (Raise FileNotFoundError))
            (options None (Some "pcrs.bin"%string) false true)))
  = 1
  ∧ exit_status
      (snd (main (machine [plain_event 4 (digest_of x11)]
                    (Raise (OtherException "no volume")) (Raise FileNotFoundError))
              (options (Some [0; 4]) None true false)))
    = 1.
Proof.
  split.
  - eapply (proj1 (proj2 (C8_exit_status
                            (machine [boot_event 4 (digest_of x11)]
                               (Raise (OtherException "no volume")) (Raise FileNotFoundError))
                            (options None (Some "pcrs.bin"%string) false true)))
              (set_errors 1 initial_pass)).
    + vm_compute. reflexivity.
    + unfold registers. vm_compute wanted_pcrs. repeat constructor; lia.
    + reflexivity.
  - etransitivity.
    + eapply (proj1 (C8_exit_status
                       (machine [plain_event 4 (digest_of x11)]
                          (Raise (OtherException "no volume")) (Raise FileNotFoundError))
                       (options (Some [0; 4]) None true false))
                _ init_empty_pcrs).
      * vm_compute. reflexivity.
      * unfold registers. vm_compute wanted_pcrs. repeat constructor; lia.
      * reflexivity.
      * reflexivity.
      * vm_compute wanted_pcrs. repeat constructor; vm_compute; eauto.
    + vm_compute. reflexivity.
Defined.

Lemma ascending_sorted (l : list Z) : Sorted Z.le l → ascending l = l.
Proof.
  intros H. unfold ascending.
  exact (Sorted_unique Z.le _ _ (Sorted_merge_sort Z.le l) H (merge_sort_Permutation Z.le l)).
Qed.

Lemma range_sorted : Sorted Z.le (range NUM_PCRS).
Proof. apply (bool_decide_unpack _). vm_compute. exact I. Qed.

(** C9, as stated, fails: with the registers requested as 17,0 the file
    holds the digest of register 17 and then that of register 0, which is not
    the concatenation in ascending order. *)
Lemma C9_requested_order_not_ascending :
  ∃ st,
    snd (replay (machine [] (Raise FileNotFoundError) (Raise FileNotFoundError))
           (options (Some [17; 0]) (Some "pcrs.bin"%string) false false) [] initial_pass)
    = Done st
    ∧ written (fst (main (machine [] (Raise FileNotFoundError) (Raise FileNotFoundError))
                      (options (Some [17; 0]) (Some "pcrs.bin"%string) false false)))
      = digests_of (next_pcrs st) [17; 0]
    ∧ written (fst (main (machine [] (Raise FileNotFoundError) (Raise FileNotFoundError))
                      (options (Some [17; 0]) (Some "pcrs.bin"%string) false false)))
      ≠ digests_of (next_pcrs st) (ascending [17; 0]).
Proof.
  eexists. split; [reflexivity|]. split; [vm_compute; reflexivity|].
  vm_compute. intros [=].
Qed.

(** C9, amended. In a run without [--compare] whose pass ended with a zero
    tally, with the requested indices registers 0..23 and an output path
    given: the file is opened and the bytes written to it are exactly the
    predicted digests of the requested indices, in the order in which they
    were requested, with nothing before, between or after them. That order is
    ascending when the list was given in ascending order and when no list was
    given. *)
Theorem C9_output_bytes (X : Externals) (args : Args) (path : string) (st : Pass) :
  output args = Some path → path ≠ EmptyString → compare args = false →
  snd (replay X args (enum_log_entries X (log_path args)) initial_pass) = Done st →
  errors st = 0 →
  registers (wanted_pcrs args) →
  snd (main X args) = Done tt
  ∧ OpenWrite path ∈ fst (main X args)
  ∧ written (fst (main X args)) = digests_of (next_pcrs st) (wanted_pcrs args)
  ∧ (Sorted Z.le (wanted_pcrs args) →
     written (fst (main X args)) = digests_of (next_pcrs st) (ascending (wanted_pcrs args)))
  ∧ (pcr_list args = None →
     written (fst (main X args)) = digests_of (next_pcrs st) (ascending (range NUM_PCRS))).
Proof.
  intros Hout Hpath Hc Hrun Herr Hreg.
  destruct (replay_populated _ _ _ _ Hrun) as [Hpt Hpn].
  destruct (main_after_replay X args st Hrun) as [Hsnd Hfst].
  destruct (report_without_compare X args st Hc
              (registers_lookup _ _ Hpt Hreg) (registers_lookup _ _ Hpn Hreg))
    as (Hres & Hwr & Hopen).
  assert (Htruthy : truthy (output args) = true)
    by (rewrite Hout; apply truthy_Some, Hpath).
  assert (Hwritten : written (fst (main X args)) = digests_of (next_pcrs st) (wanted_pcrs args)).
  { rewrite Hfst, written_app, (Hwr Herr), Htruthy.
    rewrite (written_nil _ (not_result_not_file _ (replay_no_result_output X args _ _))).
    reflexivity. }
  split; [rewrite Hsnd, Hres, decide_True by exact Herr; reflexivity|].
  split; [rewrite Hfst; apply elem_of_app; right; exact (Hopen Herr path Hout Htruthy)|].
  split; [exact Hwritten|]. split.
  - intros Hs. rewrite (ascending_sorted _ Hs). exact Hwritten.
  - intros Hnone. rewrite (ascending_sorted _ range_sorted), Hwritten.
    unfold wanted_pcrs. rewrite Hnone. reflexivity.
Qed.

Lemma C9_output_bytes_witness :
  snd (main (machine [plain_event 0 (digest_of x11)] (Raise FileNotFoundError)
               (Raise FileNotFoundError))
         (options (Some [17; 0]) (Some "pcrs.bin"%string) false false))
  = Done tt
  ∧ hex (written (fst (main (machine [plain_event 0 (digest_of x11)] (Raise FileNotFoundError)
                               (Raise FileNotFoundError))
                         (options (Some [17; 0]) (Some "pcrs.bin"%string) false false))))
    = ("ffffffffffffffffffffffffffffffffffffffff"
       +:+ "b3e26c6ca6785f04dd7187293d802d5b16dad8c1")%string.
Proof.
  destruct (C9_output_bytes
              (machine [plain_event 0 (digest_of x11)] (Raise FileNotFoundError)
                 (Raise FileNotFoundError))
              (options (Some [17; 0]) (Some "pcrs.bin"%string) false false)
              "pcrs.bin"
              {| this_pcrs := <[0 := SHA1.digest (repeat x00 20 ++ digest_of x11)]> init_empty_pcrs;
                 next_pcrs := <[0 := SHA1.digest (repeat x00 20 ++ digest_of x11)]> init_empty_pcrs;
                 last_efi_binary := None; errors := 0 |})
    as (Hdone & _ & Hwritten & _).
  - reflexivity.
  - discriminate.
  - reflexivity.
  - vm_compute. reflexivity.
  - reflexivity.
  - unfold registers. vm_compute wanted_pcrs. repeat constructor; lia.
  - split; [exact Hdone|]. rewrite Hwritten. vm_compute. reflexivity.
Defined.

(** C10. With [--compare]: no run prints the final table or opens or writes
    the output file; what follows the pass does not depend on the tally; when
    the pass reaches its end the run ends in [exit] with status 0 or 1, or in
    an exception of the live read or of a lookup; and with the requested
    indices registers that the live read returned, the status is 0 when every
    requested live value equals the computed current value and 1 otherwise. *)
Theorem C10_compare_mode (X : Externals) (args : Args) :
  compare args = true →
  emits_only not_result_output (main X args)
  ∧ (∀ st n, report X args (set_errors n st) = report X args st)
  ∧ (∀ st,
       snd (replay X args (enum_log_entries X (log_path args)) initial_pass) = Done st →
       (∃ s, snd (main X args) = SystemExit s ∧ (s = 0 ∨ s = 1))
       ∨ (∃ e, snd (main X args) = Raised e))
  ∧ (∀ st real,
       snd (replay X args (enum_log_entries X (log_path args)) initial_pass) = Done st →
       registers (wanted_pcrs args) →
       read_current_pcrs X (wanted_pcrs args) = Return real →
       Forall (λ idx, is_Some (real !! idx)) (wanted_pcrs args) →
       exit_status (snd (main X args))
       = if decide (Forall (λ idx, real !! idx = this_pcrs st !! idx) (wanted_pcrs args))
         then 0 else 1).
Proof.
  intros Hc. split; [|split; [|split]].
  - destruct (snd (replay X args (enum_log_entries X (log_path args)) initial_pass))
      as [st|e|s] eqn:Hrun.
    + unfold emits_only. rewrite (proj2 (main_after_replay X args st Hrun)).
      rewrite (proj2 (report_with_compare X args st Hc)).
      apply Forall_app. split;
        [apply replay_no_result_output|apply compare_live_no_result_output].
    + apply main_no_result_output_before_report. intros st. rewrite Hrun. discriminate.
    + apply main_no_result_output_before_report. intros st. rewrite Hrun. discriminate.
  - intros st n.
    destruct (report_with_compare X args (set_errors n st) Hc) as [H1 H2].
    destruct (report_with_compare X args st Hc) as [H3 H4].
    rewrite (surjective_pairing (report X args (set_errors n st))).
    rewrite (surjective_pairing (report X args st)).
    rewrite H1, H2, H3, H4. reflexivity.
  - intros st Hrun. rewrite (proj1 (main_after_replay X args st Hrun)).
    rewrite (proj1 (report_with_compare X args st Hc)). apply compare_live_ends.
  - intros st real Hrun Hreg Hread Hreal.
    exact (main_exit_compare X args st real Hrun Hreg Hc Hread Hreal).
Qed.

Lemma C10_compare_mode_witness :
  emits_only not_result_output
    (main (machine [boot_event 4 (digest_of x11)]
             (Raise (OtherException "no volume")) (Raise FileNotFoundError))
       (options None (Some "pcrs.bin"%string) true true))
  ∧ exit_status
      (snd (main (machine [boot_event 4 (digest_of x11)]
                    (Raise (OtherException "no volume")) (Raise FileNotFoundError))
              (options None (Some "pcrs.bin"%string) true true)))
    = 0.
Proof.
  destruct (C10_compare_mode
              (machine [boot_event 4 (digest_of x11)]
                 (Raise (OtherException "no volume")) (Raise FileNotFoundError))
              (options None (Some "pcrs.bin"%string) true true) eq_refl)
    as (Hquiet & _ & _ & Hexit).
  split; [exact Hquiet|].
  etransitivity.
  - apply (Hexit (set_errors 1 initial_pass) init_empty_pcrs).
    + vm_compute. reflexivity.
    + unfold registers. vm_compute wanted_pcrs. repeat constructor; lia.
    + reflexivity.
    + vm_compute wanted_pcrs. repeat constructor; vm_compute; eauto.
  - vm_compute. reflexivity.
Defined.

(** * Further properties of the two programs *)

(** ** Invariants of the pass *)

Lemma wellformed_init : wellformed init_empty_pcrs.
Proof.
  intros i. split; [apply populated_init|].
  intros v. rewrite init_empty_pcrs_lookup. case_bool_decide; [|discriminate].
  intros [= <-]. apply repeat_length.
Qed.

Lemma wellformed_extended m idx d m' :
  wellformed m → extended m idx d m' → wellformed m'.
Proof.
  intros Hm Hext i. split.
  - apply (populated_extended m idx d m'); [intros j; apply Hm|exact Hext].
  - destruct Hext as (v0 & Hv0 & ->). intros v. rewrite lookup_insert.
    destruct (decide (idx = i)); [intros [= <-]; apply digest_length|apply Hm].
Qed.

Lemma process_event_wellformed X args st e :
  wellformed (this_pcrs st) ∧ wellformed (next_pcrs st) →
  returns (process_event X args st e)
    (λ st', wellformed (this_pcrs st') ∧ wellformed (next_pcrs st')).
Proof.
  intros [Ht Hn]. eapply returns_weaken; [apply process_event_transition|].
  intros st' [[-> ->]|(L & d & _ & H1 & H2)]; [tauto|].
  split; [exact (wellformed_extended _ _ _ _ Ht H1)|exact (wellformed_extended _ _ _ _ Hn H2)].
Qed.

(** X1. Whatever the log and the collaborators, a state the pass reaches has
    in both banks exactly the registers 0..23, and every register is 20 bytes
    long. *)
Theorem X1_banks_wellformed (X : Externals) (args : Args) (events : list Event) (st : Pass) :
  snd (replay X args events initial_pass) = Done st →
  wellformed (this_pcrs st) ∧ wellformed (next_pcrs st).
Proof.
  revert st.
  apply (returns_for_each _ (λ st, wellformed (this_pcrs st) ∧ wellformed (next_pcrs st))).
  - intros st e. apply process_event_wellformed.
  - split; exact wellformed_init.
Qed.

Lemma X1_banks_wellformed_witness :
  ∃ st,
    snd (replay (machine [] (Return (Some "/boot/EFI/loader.efi"%string)) (Return "quiet"%string))
           (options (Some [4; 8]) None false false)
           [boot_event 4 (digest_of x22); ipl_event 8 [x01; x02]] initial_pass) = Done st
    ∧ wellformed (this_pcrs st) ∧ wellformed (next_pcrs st).
Proof.
  eexists. split; [vm_compute; reflexivity|].
  apply (X1_banks_wellformed
           (machine [] (Return (Some "/boot/EFI/loader.efi"%string)) (Return "quiet"%string))
           (options (Some [4; 8]) None false false)
           [boot_event 4 (digest_of x22); ipl_event 8 [x01; x02]]).
  vm_compute. reflexivity.
Defined.

Lemma replay_untouched X args i events :
  ∀ st st',
    snd (replay X args events st) = Done st' →
    Forall (λ e, pcr_idx e ≠ i) events →
    this_pcrs st' !! i = this_pcrs st !! i ∧ next_pcrs st' !! i = next_pcrs st !! i.
Proof.
  induction events as [|e events IH]; intros st st' Hrun Hne.
  - injection Hrun as <-. split; reflexivity.
  - apply Forall_cons in Hne as [Hi Hne]. unfold replay in Hrun. cbn [for_each] in Hrun.
    apply bind_Done_inv in Hrun as (st1 & Hstep & Hrest).
    destruct (IH st1 st' Hrest Hne) as [-> ->].
    destruct (process_event_transition X args st e st1 Hstep)
      as [[-> ->]|(L & d & _ & (v & _ & ->) & (n & _ & ->))]; [split; reflexivity|].
    rewrite !lookup_insert_ne by exact Hi. split; reflexivity.
Qed.

(** X2. A register that no processed entry names still holds its reset value
    in both banks, whatever the entries on other registers were. *)
Theorem X2_untouched_register (X : Externals) (args : Args) (events : list Event)
    (st : Pass) (i : Z) :
  snd (replay X args events initial_pass) = Done st →
  Forall (λ e, pcr_idx e ≠ i) events →
  this_pcrs st !! i = init_empty_pcrs !! i ∧ next_pcrs st !! i = init_empty_pcrs !! i.
Proof. intros Hrun Hne. exact (replay_untouched X args i events initial_pass st Hrun Hne). Qed.

Lemma X2_untouched_register_witness :
  ∃ st,
    snd (replay (machine [] (Return (Some "/boot/EFI/loader.efi"%string)) (Return "quiet"%string))
           (options None None false false)
           [boot_event 4 (digest_of x22); plain_event 7 (digest_of x11)] initial_pass) = Done st
    ∧ this_pcrs st !! 17 = init_empty_pcrs !! 17
    ∧ next_pcrs st !! 17 = init_empty_pcrs !! 17.
Proof.
  eexists. split; [vm_compute; reflexivity|].
  apply (X2_untouched_register
           (machine [] (Return (Some "/boot/EFI/loader.efi"%string)) (Return "quiet"%string))
           (options None None false false)
           [boot_event 4 (digest_of x22); plain_event 7 (digest_of x11)]).
  - vm_compute. reflexivity.
  - repeat constructor; discriminate.
Defined.

(** ** Logs of ordinary measurements *)

Lemma ordinary_spec args e :
  ordinary args e = true →
  plain_measurement args e = true
  ∧ (∃ d, pcr_extend_value e = Some d)
  ∧ 0 ≤ pcr_idx e < 24.
Proof.
  unfold ordinary. rewrite !andb_true_iff. intros [[Hp Hv] Hi].
  apply bool_decide_eq_true_1 in Hv as [d Hd]. apply bool_decide_eq_true_1 in Hi.
  split; [exact Hp|]. split; [eauto|exact Hi].
Qed.

Lemma values_on_cons_here e events d :
  pcr_extend_value e = Some d →
  values_on (pcr_idx e) (e :: events) = d :: values_on (pcr_idx e) events.
Proof.
  intros Hd. unfold values_on. cbn [omap list_omap].
  rewrite (bool_decide_eq_true_2 _ (eq_refl (pcr_idx e))), Hd. reflexivity.
Qed.

Lemma values_on_cons_other i e events :
  pcr_idx e ≠ i → values_on i (e :: events) = values_on i events.
Proof.
  intros Hi. unfold values_on. cbn [omap list_omap].
  rewrite (bool_decide_eq_false_2 _ Hi). reflexivity.
Qed.

Lemma replay_ordinary X args events :
  Forall (λ e, ordinary args e = true) events →
  ∀ st,
    populated (this_pcrs st) → populated (next_pcrs st) →
    ∃ st',
      snd (replay X args events st) = Done st'
      ∧ last_efi_binary st' = last_efi_binary st ∧ errors st' = errors st
      ∧ ∀ i, this_pcrs st' !! i = (λ v, chain v (values_on i events)) <$> this_pcrs st !! i
             ∧ next_pcrs st' !! i = (λ v, chain v (values_on i events)) <$> next_pcrs st !! i.
Proof.
  induction 1 as [|e events He _ IH]; intros st Ht Hn.
  - exists st. split; [reflexivity|]. split; [reflexivity|]. split; [reflexivity|].
    intros i. destruct (this_pcrs st !! i), (next_pcrs st !! i); split; reflexivity.
  - apply ordinary_spec in He as (Hp & (d & Hd) & Hi).
    destruct (proj2 (Ht _) Hi) as [c Hc]. destruct (proj2 (Hn _) Hi) as [n Hn'].
    assert (Hv : pcr_idx e ≠ VIRTUAL_PCR) by (unfold VIRTUAL_PCR; lia).
    pose proof (process_event_plain X args st e d c n Hp Hd Hv Hc Hn') as Hstep.
    set (st1 := {| this_pcrs := <[pcr_idx e := SHA1.digest (c ++ d)]> (this_pcrs st);
                   next_pcrs := <[pcr_idx e := SHA1.digest (n ++ d)]> (next_pcrs st);
                   last_efi_binary := last_efi_binary st; errors := errors st |}) in *.
    destruct (IH st1) as (st' & Hrun & Htrail & Herr & Hbanks).
    { apply (populated_extended (this_pcrs st) (pcr_idx e) d); [exact Ht|]. exists c. auto. }
    { apply (populated_extended (next_pcrs st) (pcr_idx e) d); [exact Hn|]. exists n. auto. }
    exists st'. unfold replay. cbn [for_each]. rewrite snd_bind, Hstep.
    split; [exact Hrun|]. split; [exact Htrail|]. split; [exact Herr|].
    intros i. destruct (Hbanks i) as [-> ->]. cbn [st1 this_pcrs next_pcrs].
    destruct (decide (pcr_idx e = i)) as [<-|Hne].
    + rewrite !lookup_insert_eq, Hc, Hn', (values_on_cons_here e events d Hd).
      split; reflexivity.
    + rewrite !lookup_insert_ne by exact Hne. rewrite (values_on_cons_other i e events Hne).
      split; reflexivity.
Qed.

(** X3. On a log of ordinary measurements (entries with an extend value on a
    register 0..23 that are no boot application, no NO_ACTION and no IPL entry
    on a requested register) the pass reaches the end of the log, the tally
    stays 0, no EFI binary is recorded, and in both banks every register holds
    the hash chain from its reset value over the logged values of its entries,
    in log order. *)
Theorem X3_chain_of_ordinary_log (X : Externals) (args : Args) (events : list Event) :
  Forall (λ e, ordinary args e = true) events →
  ∃ st,
    snd (replay X args events initial_pass) = Done st
    ∧ last_efi_binary st = None ∧ errors st = 0
    ∧ ∀ i, 0 ≤ i < 24 →
        this_pcrs st !! i = Some (chain (reset_value i) (values_on i events))
        ∧ next_pcrs st !! i = Some (chain (reset_value i) (values_on i events)).
Proof.
  intros Hord.
  destruct (replay_ordinary X args events Hord initial_pass populated_init populated_init)
    as (st & Hrun & Htrail & Herr & Hbanks).
  exists st. split; [exact Hrun|]. split; [exact Htrail|]. split; [exact Herr|].
  intros i Hi. destruct (Hbanks i) as [-> ->]. cbn [initial_pass this_pcrs next_pcrs].
  rewrite init_empty_pcrs_lookup, (bool_decide_eq_true_2 _ Hi). split; reflexivity.
Qed.

Lemma X3_chain_of_ordinary_log_witness :
  ∃ st,
    snd (replay (machine [] (Raise FileNotFoundError) (Raise FileNotFoundError))
           (options (Some [8]) None false true)
           [plain_event 0 (digest_of x11); ipl_event 9 (digest_of x33);
            plain_event 0 (digest_of x22)] initial_pass) = Done st
    ∧ last_efi_binary st = None ∧ errors st = 0
    ∧ ∀ i, 0 ≤ i < 24 →
        this_pcrs st !! i
        = Some (chain (reset_value i)
                  (values_on i [plain_event 0 (digest_of x11); ipl_event 9 (digest_of x33);
                                plain_event 0 (digest_of x22)]))
        ∧ next_pcrs st !! i
          = Some (chain (reset_value i)
                    (values_on i [plain_event 0 (digest_of x11); ipl_event 9 (digest_of x33);
                                  plain_event 0 (digest_of x22)])).
Proof.
  apply (X3_chain_of_ordinary_log
           (machine [] (Raise FileNotFoundError) (Raise FileNotFoundError))
           (options (Some [8]) None false true)).
  repeat constructor.
Defined.

(** ** Entries the pass passes over, and entries it cannot fold *)

(** X4. A NO_ACTION entry that is not printed, or whose index is a register
    0..23, can be put anywhere into a log without changing how the pass ends:
    the final state, the exception or the exit status are those of the log
    without it. *)
Theorem X4_no_action_insertion (X : Externals) (args : Args) (e : Event)
    (before after : list Event) :
  event_type e = NO_ACTION →
  verbose_pcr args (pcr_idx e) = false ∨ 0 ≤ pcr_idx e < 24 →
  snd (replay X args (before ++ e :: after) initial_pass)
  = snd (replay X args (before ++ after) initial_pass).
Proof.
  intros Ht Hok. unfold replay. rewrite !for_each_app, !snd_bind.
  destruct (snd (for_each (process_event X args) before initial_pass)) as [st|ex|s] eqn:Hrun;
    [|reflexivity..].
  cbn [for_each]. rewrite snd_bind.
  rewrite (proj2 (process_event_no_action X args st e Ht)); [reflexivity|].
  destruct Hok as [Hq|Hi]; [left; exact Hq|right].
  destruct (replay_populated X args before st Hrun) as [Hpt Hpn].
  split; [apply Hpt, Hi|apply Hpn, Hi].
Qed.

Lemma X4_no_action_insertion_witness :
  snd (replay (machine [] (Raise FileNotFoundError) (Raise FileNotFoundError))
         (options None None false true)
         ([plain_event 0 (digest_of x11)] ++ no_action_event 0 (digest_of x33)
            :: [plain_event 0 (digest_of x22)]) initial_pass)
  = snd (replay (machine [] (Raise FileNotFoundError) (Raise FileNotFoundError))
           (options None None false true)
           ([plain_event 0 (digest_of x11)] ++ [plain_event 0 (digest_of x22)]) initial_pass).
Proof.
  apply (X4_no_action_insertion
           (machine [] (Raise FileNotFoundError) (Raise FileNotFoundError))
           (options None None false true) (no_action_event 0 (digest_of x33))
           [plain_event 0 (digest_of x11)] [plain_event 0 (digest_of x22)]).
  - reflexivity.
  - right. cbn. lia.
Defined.

Lemma process_event_plain_no_register X args st e d :
  plain_measurement args e = true →
  pcr_extend_value e = Some d → pcr_idx e ≠ VIRTUAL_PCR →
  this_pcrs st !! pcr_idx e = None →
  process_event X args st e
  = ((if verbose_pcr args (pcr_idx e) then [ShowLogEntry e] else []),
     Raised (KeyError (IntKey (pcr_idx e)))).
Proof.
  intros Hp Hd Hv Hc. apply plain_measurement_spec in Hp as (Hbsa & Hna & Hipl).
  unfold process_event.
  rewrite Hd, (bool_decide_eq_false_2 _ Hv), Hbsa, Hna, Hipl.
  cbn [bind ret]. unfold fold_event, getitem. rewrite Hc.
  destruct (verbose_pcr args (pcr_idx e)); reflexivity.
Qed.

(** X5. An entry to be folded whose index is neither a register 0..23 nor
    the virtual index ends the run: the lookup of line 102 raises KeyError for
    that index, nothing after the entry is processed, the final table and the
    output file are not produced, and the exit status is 1. *)
Theorem X5_index_out_of_range (X : Externals) (args : Args) (e : Event) (d : bytes)
    (before after : list Event) (st : Pass) :
  plain_measurement args e = true →
  pcr_extend_value e = Some d →
  pcr_idx e ≠ VIRTUAL_PCR → ¬ (0 ≤ pcr_idx e < 24) →
  enum_log_entries X (log_path args) = before ++ e :: after →
  snd (replay X args before initial_pass) = Done st →
  snd (main X args) = Raised (KeyError (IntKey (pcr_idx e)))
  ∧ exit_status (snd (main X args)) = 1
  ∧ emits_only not_result_output (main X args).
Proof.
  intros Hp Hd Hv Hi Hlog Hbefore.
  destruct (replay_populated X args before st Hbefore) as [Hpt _].
  assert (Hnone : this_pcrs st !! pcr_idx e = None).
  { destruct (this_pcrs st !! pcr_idx e) eqn:E; [|reflexivity].
    exfalso. apply Hi, Hpt. eauto. }
  assert (Hrun : snd (replay X args (enum_log_entries X (log_path args)) initial_pass)
                 = Raised (KeyError (IntKey (pcr_idx e)))).
  { rewrite Hlog. unfold replay in *. rewrite for_each_app, snd_bind, Hbefore.
    cbn [for_each]. rewrite snd_bind.
    rewrite (process_event_plain_no_register X args st e d Hp Hd Hv Hnone). reflexivity. }
  assert (Hmain : snd (main X args) = Raised (KeyError (IntKey (pcr_idx e)))).
  { unfold main. rewrite snd_bind, Hrun. reflexivity. }
  rewrite Hmain. split; [reflexivity|]. split; [reflexivity|].
  apply main_no_result_output_before_report. intros st'. rewrite Hrun. discriminate.
Qed.

Lemma X5_index_out_of_range_witness :
  snd (main (machine [plain_event 0 (digest_of x11); plain_event 24 (digest_of x22)]
               (Raise FileNotFoundError) (Raise FileNotFoundError))
         (options None (Some "pcrs.bin"%string) false false))
  = Raised (KeyError (IntKey 24))
  ∧ exit_status
      (snd (main (machine [plain_event 0 (digest_of x11); plain_event 24 (digest_of x22)]
                    (Raise FileNotFoundError) (Raise FileNotFoundError))
              (options None (Some "pcrs.bin"%string) false false))) = 1
  ∧ emits_only not_result_output
      (main (machine [plain_event 0 (digest_of x11); plain_event 24 (digest_of x22)]
               (Raise FileNotFoundError) (Raise FileNotFoundError))
         (options None (Some "pcrs.bin"%string) false false)).
Proof.
  eapply (X5_index_out_of_range
            (machine [plain_event 0 (digest_of x11); plain_event 24 (digest_of x22)]
               (Raise FileNotFoundError) (Raise FileNotFoundError))
            (options None (Some "pcrs.bin"%string) false false)
            (plain_event 24 (digest_of x22)) (digest_of x22)
            [plain_event 0 (digest_of x11)] []).
  - reflexivity.
  - reflexivity.
  - discriminate.
  - cbn. lia.
  - reflexivity.
  - vm_compute. reflexivity.
Defined.

(** ** The two branches, beyond the cases of the claims *)

(** X6. An IPL entry on a requested register that passes the filter, when the
    loader predictor and the encoder return (and, with [--verbose], the old
    command line decodes): the current bank folds the logged value, the
    predicted bank folds the SHA-1 of the encoded predicted command line, and
    the tally and the last EFI binary are as before. *)
Theorem X6_predicted_cmdline (X : Externals) (args : Args) (st : Pass) (e : Event)
    (L : bytes) (cmdline : string) (encoded v n : bytes) :
  event_type e = IPL → pcr_idx e ∈ wanted_pcrs args →
  pcr_extend_value e = Some L → pcr_idx e ≠ VIRTUAL_PCR →
  loader_get_next_cmdline X (last_efi_binary st) = Return cmdline →
  (verbose args = true → ∃ old, decode_utf16le X (removelast (event_data e)) = Return old) →
  loader_encode_pcr8 X cmdline = Return encoded →
  this_pcrs st !! pcr_idx e = Some v → next_pcrs st !! pcr_idx e = Some n →
  snd (process_event X args st e)
  = Done {| this_pcrs := <[pcr_idx e := SHA1.digest (v ++ L)]> (this_pcrs st);
            next_pcrs := <[pcr_idx e := SHA1.digest (n ++ SHA1.digest encoded)]> (next_pcrs st);
            last_efi_binary := last_efi_binary st; errors := errors st |}.
Proof.
  intros Ht Hw HL Hv Hl Hdec Henc Hc Hn. unfold process_event, loader_cmdline.
  rewrite Ht, (bool_decide_eq_true_2 _ Hw), HL, (bool_decide_eq_false_2 _ Hv).
  simpl. rewrite Hl.
  destruct (verbose args) eqn:Hverb.
  - destruct (Hdec eq_refl) as [old Hold]. rewrite Hold. simpl. rewrite Henc.
    destruct (verbose_pcr args (pcr_idx e)); simpl;
      unfold fold_event, getitem, extend_pcr_with_hash, hash_bytes; simpl;
      rewrite Hc; simpl; rewrite Hn; simpl; rewrite ?lookup_insert_eq; reflexivity.
  - simpl. rewrite Henc.
    destruct (verbose_pcr args (pcr_idx e)); simpl;
      unfold fold_event, getitem, extend_pcr_with_hash, hash_bytes; simpl;
      rewrite Hc; simpl; rewrite Hn; simpl; rewrite ?lookup_insert_eq; reflexivity.
Qed.

Lemma X6_predicted_cmdline_witness :
  snd (process_event (machine [] (Raise FileNotFoundError) (Return "quiet"%string))
         (options (Some [8]) None false true) initial_pass (ipl_event 8 (digest_of x11)))
  = Done {| this_pcrs := <[8 := SHA1.digest (repeat x00 20 ++ digest_of x11)]> init_empty_pcrs;
            next_pcrs :=
              <[8 := SHA1.digest (repeat x00 20 ++ SHA1.digest (ascii_bytes "quiet"))]>
                init_empty_pcrs;
            last_efi_binary := None; errors := 0 |}.
Proof.
  apply (X6_predicted_cmdline (machine [] (Raise FileNotFoundError) (Return "quiet"%string))
           (options (Some [8]) None false true) initial_pass (ipl_event 8 (digest_of x11))
           (digest_of x11) "quiet" (ascii_bytes "quiet") (repeat x00 20) (repeat x00 20));
    try reflexivity.
  - apply list_elem_of_here.
  - discriminate.
  - intros _. exists EmptyString. reflexivity.
Defined.

(** X7. The [try] of lines 86-99 absorbs FileNotFoundError only: when the
    loader predictor raises any other exception for an IPL entry on a requested
    register that passes the filter, that exception ends the pass and nothing
    is folded. *)
Theorem X7_predictor_failure_propagates (X : Externals) (args : Args) (st : Pass)
    (e : Event) (L : bytes) (ex : exn) :
  event_type e = IPL → pcr_idx e ∈ wanted_pcrs args →
  pcr_extend_value e = Some L → pcr_idx e ≠ VIRTUAL_PCR →
  loader_get_next_cmdline X (last_efi_binary st) = Raise ex →
  ex ≠ FileNotFoundError →
  snd (process_event X args st e) = Raised ex.
Proof.
  intros Ht Hw HL Hv Hl Hex. unfold process_event, loader_cmdline.
  rewrite Ht, (bool_decide_eq_true_2 _ Hw), HL, (bool_decide_eq_false_2 _ Hv).
  simpl. rewrite Hl.
  assert (Hnot : is_FileNotFoundError ex = false) by (destruct ex; [reflexivity|contradiction|reflexivity..]).
  destruct (verbose_pcr args (pcr_idx e)); simpl; rewrite Hnot; reflexivity.
Qed.

Lemma X7_predictor_failure_propagates_witness :
  snd (process_event (machine [] (Raise FileNotFoundError) (Raise (OtherException "permission")))
         (options (Some [8]) None false false) initial_pass (ipl_event 8 (digest_of x11)))
  = Raised (OtherException "permission").
Proof.
  apply (X7_predictor_failure_propagates
           (machine [] (Raise FileNotFoundError) (Raise (OtherException "permission")))
           (options (Some [8]) None false false) initial_pass (ipl_event 8 (digest_of x11))
           (digest_of x11)); try reflexivity.
  - apply list_elem_of_here.
  - discriminate.
  - discriminate.
Defined.

(** X8. Line 89 decodes the logged command line only with [--verbose], inside
    the [try]: when the predictor returns and the decoding raises an exception
    other than FileNotFoundError, a verbose run ends with that exception,
    while the run without [--verbose] never decodes and folds the entry. *)
Theorem X8_verbose_decoding_failure (X : Externals) (args : Args) (st : Pass)
    (e : Event) (L : bytes) (cmdline : string) (ex : exn) :
  event_type e = IPL → pcr_idx e ∈ wanted_pcrs args →
  pcr_extend_value e = Some L → pcr_idx e ≠ VIRTUAL_PCR →
  loader_get_next_cmdline X (last_efi_binary st) = Return cmdline →
  decode_utf16le X (removelast (event_data e)) = Raise ex →
  ex ≠ FileNotFoundError →
  verbose args = true →
  snd (process_event X args st e) = Raised ex.
Proof.
  intros Ht Hw HL Hv Hl Hdec Hex Hverb. unfold process_event, loader_cmdline.
  rewrite Ht, (bool_decide_eq_true_2 _ Hw), HL, (bool_decide_eq_false_2 _ Hv).
  simpl. rewrite Hl, Hverb, Hdec.
  assert (Hnot : is_FileNotFoundError ex = false) by (destruct ex; [reflexivity|contradiction|reflexivity..]).
  destruct (verbose_pcr args (pcr_idx e)); simpl; rewrite Hnot; reflexivity.
Qed.

Lemma X8_verbose_decoding_failure_witness :
  snd (process_event
         {| enum_log_entries := fun _ => [];
            parse_efi_bsa_event := fun _ => Return {| device_path_vec := [] |};
            device_path_to_unix_path := fun _ => Return None;
            hash_pecoff := fun _ _ => Return (digest_of x33);
            loader_get_next_cmdline := fun _ => Return "quiet"%string;
            loader_encode_pcr8 := fun c => Return (ascii_bytes c);
            decode_utf16le := fun _ => Raise UnicodeDecodeError;
            read_current_pcrs := fun _ => Return init_empty_pcrs;
            read_current_pcr := fun _ => Return (digest_of x00) |}
         (options (Some [8]) None false true) initial_pass (ipl_event 8 (digest_of x11)))
  = Raised UnicodeDecodeError.
Proof.
  apply (X8_verbose_decoding_failure _ (options (Some [8]) None false true) initial_pass
           (ipl_event 8 (digest_of x11)) (digest_of x11) "quiet" UnicodeDecodeError);
    try reflexivity.
  - apply list_elem_of_here.
  - discriminate.
  - discriminate.
Defined.

(** X9. Only the device path resolver is inside a [try]: for a boot
    application entry that passes the filter, an exception of
    [parse_efi_bsa_event], or of [hash_pecoff] on a resolved path, ends the
    pass with that exception, with and without [--verbose]. *)
Theorem X9_parse_and_hash_failures_propagate (X : Externals) (args : Args) (st : Pass)
    (e : Event) (L : bytes) (ex : exn) :
  event_type e = EFI_BOOT_SERVICES_APPLICATION →
  pcr_extend_value e = Some L → pcr_idx e ≠ VIRTUAL_PCR →
  (parse_efi_bsa_event X (event_data e) = Raise ex →
   snd (process_event X args st e) = Raised ex)
  ∧ (∀ ed p,
       parse_efi_bsa_event X (event_data e) = Return ed →
       device_path_to_unix_path X (device_path_vec ed) = Return p →
       truthy p = true →
       hash_pecoff X p "sha1" = Raise ex →
       snd (process_event X args st e) = Raised ex).
Proof.
  intros Ht HL Hv. split.
  - intros Hparse. unfold process_event, boot_application.
    rewrite HL, (bool_decide_eq_false_2 _ Hv), Ht.
    rewrite (bool_decide_eq_true_2 _ (eq_refl EFI_BOOT_SERVICES_APPLICATION)), Hparse.
    destruct (verbose_pcr args (pcr_idx e)); reflexivity.
  - intros ed p Hed Hp Htr Hhash. unfold process_event, boot_application.
    rewrite HL, (bool_decide_eq_false_2 _ Hv), Ht.
    rewrite (bool_decide_eq_true_2 _ (eq_refl EFI_BOOT_SERVICES_APPLICATION)).
    rewrite Hed. cbn [call bind ret]. rewrite Hp. cbn [call bind ret try_except].
    rewrite Htr, Hhash.
    destruct (verbose_pcr args (pcr_idx e)); reflexivity.
Qed.

Lemma X9_parse_and_hash_failures_propagate_witness :
  snd (process_event
         {| enum_log_entries := fun _ => [];
            parse_efi_bsa_event := fun _ => Return {| device_path_vec := [] |};
            device_path_to_unix_path := fun _ => Return (Some "/boot/EFI/gone.efi"%string);
            hash_pecoff := fun _ _ => Raise FileNotFoundError;
            loader_get_next_cmdline := fun _ => Return "quiet"%string;
            loader_encode_pcr8 := fun c => Return (ascii_bytes c);
            decode_utf16le := fun _ => Return EmptyString;
            read_current_pcrs := fun _ => Return init_empty_pcrs;
            read_current_pcr := fun _ => Return (digest_of x00) |}
         (options None None false true) initial_pass (boot_event 4 (digest_of x11)))
  = Raised FileNotFoundError.
Proof.
  eapply (proj2 (X9_parse_and_hash_failures_propagate _ (options None None false true)
                   initial_pass (boot_event 4 (digest_of x11)) (digest_of x11)
                   FileNotFoundError eq_refl eq_refl ltac:(discriminate))
            {| device_path_vec := [] |} (Some "/boot/EFI/gone.efi"%string));
    reflexivity.
Defined.

(** ** The tally and the last EFI binary *)

Lemma process_event_tally X args st e :
  returns (process_event X args st e)
    (λ st', errors st' = errors st ∨ (errors st' = 1 ∧ verbose args = true)).
Proof.
  unfold_event. repeat returns_step.
  all: simpl in *; auto.
  all: discriminate.
Qed.

Lemma replay_tally X args events st :
  snd (replay X args events initial_pass) = Done st →
  (errors st = 0 ∨ errors st = 1) ∧ (verbose args = false → errors st = 0).
Proof.
  revert st.
  apply (returns_for_each _
           (λ st, (errors st = 0 ∨ errors st = 1) ∧ (verbose args = false → errors st = 0))).
  - intros st e [H01 Hq]. eapply returns_weaken; [apply process_event_tally|].
    intros st' [->|[-> Hverb]]; [tauto|].
    split; [right; reflexivity|]. intros Hf. congruence.
  - split; [left; reflexivity|reflexivity].
Qed.

(** X10. At every point of the pass the tally is 0 or 1, and in a run
    without [--verbose] it is 0: there an unresolved boot application ends the
    run at once, so the exit of lines 130-132 is only ever taken by a verbose
    run. *)
Theorem X10_tally_is_a_flag (X : Externals) (args : Args) (events : list Event) (st : Pass) :
  snd (replay X args events initial_pass) = Done st →
  (errors st = 0 ∨ errors st = 1) ∧ (verbose args = false → errors st = 0).
Proof. apply replay_tally. Qed.

Lemma X10_tally_is_a_flag_witness :
  ∃ st,
    snd (replay (machine [] (Raise (OtherException "no volume")) (Raise FileNotFoundError))
           (options None None false true)
           [boot_event 4 (digest_of x11); boot_event 4 (digest_of x22)] initial_pass) = Done st
    ∧ (errors st = 0 ∨ errors st = 1)
    ∧ (verbose (options None None false true) = false → errors st = 0).
Proof.
  eexists. split; [vm_compute; reflexivity|].
  apply (X10_tally_is_a_flag
           (machine [] (Raise (OtherException "no volume")) (Raise FileNotFoundError))
           (options None None false true)
           [boot_event 4 (digest_of x11); boot_event 4 (digest_of x22)]).
  vm_compute. reflexivity.
Defined.

Lemma process_event_trail X args st e :
  returns (process_event X args st e)
    (λ st', last_efi_binary st' = last_efi_binary st
            ∨ (event_type e = EFI_BOOT_SERVICES_APPLICATION
               ∧ truthy (last_efi_binary st') = true)).
Proof.
  unfold_event. repeat returns_step.
  all: simpl in *; auto.
  all: try discriminate.
  all: right; split; [|assumption].
  all: match goal with
       | H : bool_decide (event_type _ = EFI_BOOT_SERVICES_APPLICATION) = true |- _ =>
           exact (bool_decide_eq_true_1 _ H)
       end.
Qed.

Lemma replay_trail_none X args events :
  Forall (λ e, event_type e ≠ EFI_BOOT_SERVICES_APPLICATION) events →
  ∀ st0 st,
    last_efi_binary st0 = None →
    snd (replay X args events st0) = Done st → last_efi_binary st = None.
Proof.
  induction 1 as [|e events He _ IH]; intros st0 st H0 Hrun.
  - injection Hrun as <-. exact H0.
  - unfold replay in Hrun. cbn [for_each] in Hrun.
    apply bind_Done_inv in Hrun as (st1 & Hstep & Hrest).
    apply (IH st1 st); [|exact Hrest].
    destruct (process_event_trail X args st0 e st1 Hstep) as [->|[Hbsa _]];
      [exact H0|contradiction].
Qed.

(** X11. The last EFI binary is [None] or a non-empty path at every point of
    the pass, so the loader predictor is never given an empty path; and it is
    [None] as long as the log had no boot application entry. *)
Theorem X11_last_efi_binary (X : Externals) (args : Args) (events : list Event) (st : Pass) :
  snd (replay X args events initial_pass) = Done st →
  (last_efi_binary st = None ∨ truthy (last_efi_binary st) = true)
  ∧ (Forall (λ e, event_type e ≠ EFI_BOOT_SERVICES_APPLICATION) events →
     last_efi_binary st = None).
Proof.
  intros Hrun. split.
  - revert st Hrun.
    apply (returns_for_each _
             (λ st, last_efi_binary st = None ∨ truthy (last_efi_binary st) = true)).
    + intros st e Hst. eapply returns_weaken; [apply process_event_trail|].
      intros st' [->|[_ Htr]]; [exact Hst|right; exact Htr].
    + left. reflexivity.
  - intros Hno. exact (replay_trail_none X args events Hno initial_pass st eq_refl Hrun).
Qed.

Lemma X11_last_efi_binary_witness :
  ∃ st,
    snd (replay (machine [] (Return (Some "/boot/EFI/loader.efi"%string)) (Raise FileNotFoundError))
           (options None None false false)
           [plain_event 0 (digest_of x11); boot_event 4 (digest_of x22)] initial_pass) = Done st
    ∧ (last_efi_binary st = None ∨ truthy (last_efi_binary st) = true).
Proof.
  eexists. split; [vm_compute; reflexivity|].
  apply (X11_last_efi_binary
           (machine [] (Return (Some "/boot/EFI/loader.efi"%string)) (Raise FileNotFoundError))
           (options None None false false)
           [plain_event 0 (digest_of x11); boot_event 4 (digest_of x22)]).
  vm_compute. reflexivity.
Defined.

(** ** What the run prints and writes *)

Lemma write_output_names_path args path st :
  emits_only (λ o, ∀ p, o = OpenWrite p → p = path) (write_output args path st).
Proof.
  unfold write_output. repeat emits_only_step; intros p [=]. congruence.
Qed.

Lemma elem_of_emits_only {A} (P : io → Prop) (m : M A) (o : io) :
  emits_only P m → o ∈ fst m → P o.
Proof. unfold emits_only. rewrite Forall_forall. intros H. apply H. Qed.

Lemma report_file_output X args st o :
  is_file_output o = true → o ∈ fst (report X args st) →
  compare args = false ∧ truthy (output args) = true ∧ errors st = 0
  ∧ ∀ p, o = OpenWrite p → output args = Some p.
Proof.
  intros Ho Hin.
  destruct (compare args) eqn:Hc.
  { rewrite (proj2 (report_with_compare X args st Hc)) in Hin.
    pose proof (elem_of_emits_only _ _ _
                  (not_result_not_file _ (compare_live_no_result_output X args st)) Hin) as Hno.
    unfold not_file_output in Hno. congruence. }
  unfold report in Hin. rewrite Hc in Hin.
  rewrite fst_bind in Hin. cbn [ret fst snd app] in Hin.
  rewrite fst_bind in Hin. apply elem_of_app in Hin as [Hin|Hin].
  { pose proof (elem_of_emits_only _ _ _
                  (emits_only_when _ _ _ (final_table_not_file args st)) Hin) as Hno.
    unfold not_file_output in Hno. congruence. }
  destruct (snd (when (verbose args || negb (truthy (output args))) (final_table args st)));
    [|apply elem_of_nil in Hin; contradiction..].
  rewrite fst_bind in Hin.
  destruct (decide (errors st = 0)) as [He|He].
  - rewrite (bool_decide_eq_false_2 (errors st ≠ 0)) in Hin by tauto.
    cbn [ret fst snd app] in Hin.
    destruct (output args) as [path|] eqn:Hout; [|apply elem_of_nil in Hin; contradiction].
    destruct (truthy (Some path)) eqn:Htr; [|apply elem_of_nil in Hin; contradiction].
    split; [reflexivity|]. split; [reflexivity|]. split; [exact He|].
    intros p ->. f_equal. symmetry.
    exact (elem_of_emits_only _ _ _ (write_output_names_path args path st) Hin p eq_refl).
  - rewrite (bool_decide_eq_true_2 (errors st ≠ 0)) in Hin by exact He.
    cbn in Hin. apply list_elem_of_singleton in Hin. subst o. discriminate.
Qed.

(** X12. A file is opened or written only at the end of a run without
    [--compare] whose pass reached the end of the log with tally 0 and whose
    [--output] is a non-empty path, and the file opened is that path: no run
    that compares, aborts, raises in the pass or ends with a nonzero tally
    touches a file. *)
Theorem X12_file_only_after_clean_pass (X : Externals) (args : Args) (o : io) :
  is_file_output o = true → o ∈ fst (main X args) →
  compare args = false ∧ truthy (output args) = true
  ∧ (∃ st, snd (replay X args (enum_log_entries X (log_path args)) initial_pass) = Done st
           ∧ errors st = 0)
  ∧ ∀ p, o = OpenWrite p → output args = Some p.
Proof.
  intros Ho Hin. unfold main in Hin. rewrite fst_bind in Hin.
  apply elem_of_app in Hin as [Hin|Hin].
  { pose proof (elem_of_emits_only _ _ _
                  (not_result_not_file _ (replay_no_result_output X args _ _)) Hin) as Hno.
    unfold not_file_output in Hno. congruence. }
  destruct (snd (replay X args (enum_log_entries X (log_path args)) initial_pass))
    as [st|ex|s] eqn:Hrun; [|apply elem_of_nil in Hin; contradiction..].
  destruct (report_file_output X args st o Ho Hin) as (Hc & Htr & He & Hp).
  split; [exact Hc|]. split; [exact Htr|]. split; [eauto|exact Hp].
Qed.

Lemma X12_file_only_after_clean_pass_witness :
  compare (options (Some [0]) (Some "pcrs.bin"%string) false false) = false
  ∧ truthy (output (options (Some [0]) (Some "pcrs.bin"%string) false false)) = true
  ∧ (∃ st,
       snd (replay (machine [] (Raise FileNotFoundError) (Raise FileNotFoundError))
              (options (Some [0]) (Some "pcrs.bin"%string) false false)
              (enum_log_entries (machine [] (Raise FileNotFoundError) (Raise FileNotFoundError))
                 (log_path (options (Some [0]) (Some "pcrs.bin"%string) false false)))
              initial_pass) = Done st
       ∧ errors st = 0)
  ∧ ∀ p, OpenWrite "pcrs.bin" = OpenWrite p
         → output (options (Some [0]) (Some "pcrs.bin"%string) false false) = Some p.
Proof.
  apply (X12_file_only_after_clean_pass
           (machine [] (Raise FileNotFoundError) (Raise FileNotFoundError))
           (options (Some [0]) (Some "pcrs.bin"%string) false false)
           (OpenWrite "pcrs.bin")).
  - reflexivity.
  - vm_compute. apply list_elem_of_here.
Defined.

Lemma write_rows_stop (m : gmap Z bytes) (good : list Z) (bad : Z) (rest : list Z) :
  Forall (λ idx, is_Some (m !! idx)) good → m !! bad = None →
  for_ (λ idx, do next <- getitem m idx; emit (FileWrite next)) (good ++ bad :: rest)
  = (map (λ idx, FileWrite (default [] (m !! idx))) good, Raised (KeyError (IntKey bad))).
Proof.
  intros Hgood Hbad. induction Hgood as [|idx l [v Hv] _ IH].
  - cbn [app for_ map]. unfold getitem. rewrite Hbad. reflexivity.
  - cbn [app for_ map]. rewrite IH. unfold getitem. rewrite Hv. reflexivity.
Qed.

(** X13. With [--output], without [--verbose] and [--compare], when the
    requested list names an index that is no register 0..23 after indices
    that are: the file is opened, the predicted digests of the indices before
    the bad one are written, and the run ends with KeyError for the bad
    index, leaving a truncated file. *)
Theorem X13_truncated_output (X : Externals) (args : Args) (path : string) (st : Pass)
    (good : list Z) (bad : Z) (rest : list Z) :
  output args = Some path → path ≠ EmptyString →
  compare args = false → verbose args = false →
  snd (replay X args (enum_log_entries X (log_path args)) initial_pass) = Done st →
  wanted_pcrs args = good ++ bad :: rest →
  registers good → ¬ (0 ≤ bad < 24) →
  snd (main X args) = Raised (KeyError (IntKey bad))
  ∧ exit_status (snd (main X args)) = 1
  ∧ OpenWrite path ∈ fst (main X args)
  ∧ written (fst (main X args)) = digests_of (next_pcrs st) good.
Proof.
  intros Hout Hpath Hc Hverb Hrun Hwanted Hgood Hbad.
  destruct (replay_populated _ _ _ _ Hrun) as [_ Hpn].
  destruct (replay_tally X args _ st Hrun) as [_ Herr]. specialize (Herr Hverb).
  assert (Hnone : next_pcrs st !! bad = None).
  { destruct (next_pcrs st !! bad) eqn:E; [|reflexivity]. exfalso. apply Hbad, Hpn. eauto. }
  assert (Htr : truthy (output args) = true) by (rewrite Hout; apply truthy_Some, Hpath).
  assert (Hreport : report X args st
                    = (OpenWrite path
                         :: map (λ idx, FileWrite (default [] (next_pcrs st !! idx))) good,
                       Raised (KeyError (IntKey bad)))).
  { unfold report. rewrite Hc, Hverb, Htr, Hout, Herr.
    cbn [orb negb when ret bind app].
    rewrite (bool_decide_eq_false_2 ((0:Z) ≠ 0)) by (intros H; apply H; reflexivity).
    unfold write_output. rewrite Hwanted.
    rewrite (write_rows_stop _ good bad rest (registers_lookup _ _ Hpn Hgood) Hnone).
    reflexivity. }
  destruct (main_after_replay X args st Hrun) as [Hsnd Hfst].
  rewrite Hsnd, Hfst, Hreport. cbn [fst snd].
  split; [reflexivity|]. split; [reflexivity|]. split.
  - apply elem_of_app. right. apply list_elem_of_here.
  - rewrite written_app.
    rewrite (written_nil _ (not_result_not_file _ (replay_no_result_output X args _ _))).
    cbn [written app]. apply written_rows.
Qed.

Lemma X13_truncated_output_witness :
  snd (main (machine [] (Raise FileNotFoundError) (Raise FileNotFoundError))
         (options (Some [17; 24; 0]) (Some "pcrs.bin"%string) false false))
  = Raised (KeyError (IntKey 24))
  ∧ exit_status
      (snd (main (machine [] (Raise FileNotFoundError) (Raise FileNotFoundError))
              (options (Some [17; 24; 0]) (Some "pcrs.bin"%string) false false))) = 1
  ∧ OpenWrite "pcrs.bin"
    ∈ fst (main (machine [] (Raise FileNotFoundError) (Raise FileNotFoundError))
             (options (Some [17; 24; 0]) (Some "pcrs.bin"%string) false false))
  ∧ written (fst (main (machine [] (Raise FileNotFoundError) (Raise FileNotFoundError))
                    (options (Some [17; 24; 0]) (Some "pcrs.bin"%string) false false)))
    = digests_of (next_pcrs initial_pass) [17].
Proof.
  apply (X13_truncated_output
           (machine [] (Raise FileNotFoundError) (Raise FileNotFoundError))
           (options (Some [17; 24; 0]) (Some "pcrs.bin"%string) false false)
           "pcrs.bin" initial_pass [17] 24 [0]); try reflexivity.
  - discriminate.
  - repeat constructor; lia.
  - lia.
Defined.

Lemma compare_rows_trace (real this : gmap Z bytes) (l : list Z) (n : Z) :
  Forall (λ idx, is_Some (real !! idx)) l → Forall (λ idx, is_Some (this !! idx)) l →
  fst (for_each
         (λ errors idx,
            do real <- getitem real idx;
            do this <- getitem this idx;
            let '(errors, good) :=
              if bool_decide (real = this) then (errors, true) else (errors + 1, false) in
            do_ print (CompareRow idx real this good);
            ret errors)
         l n)
  = map (λ idx, Stdout (CompareRow idx (default [] (real !! idx)) (default [] (this !! idx))
                          (bool_decide (real !! idx = this !! idx)))) l.
Proof.
  intros Hr Ht. revert n. induction l as [|idx l IH]; intros n; [reflexivity|].
  apply Forall_cons in Hr as [[r Hr] Hr']. apply Forall_cons in Ht as [[t Ht] Ht'].
  cbn [for_each map]. rewrite fst_bind, snd_bind. unfold getitem at 1 2 3 4.
  rewrite Hr, Ht. cbn [bind ret fst snd app default].
  case_bool_decide as Heq.
  - rewrite (bool_decide_eq_true_2 (Some r = Some t)) by congruence.
    cbn [print emit bind ret fst snd app]. rewrite (IH Hr' Ht'). reflexivity.
  - rewrite (bool_decide_eq_false_2 (Some r = Some t)) by congruence.
    cbn [print emit bind ret fst snd app]. rewrite (IH Hr' Ht'). reflexivity.
Qed.

(** X14. With [--compare], requested indices that are registers and a live
    read that returned them all: after the pass the run prints the title, the
    header and one row for every requested index in the order requested, with
    the live value, the computed current value and the mark, which is good
    exactly when the two are equal; nothing else is printed or written. *)
Theorem X14_comparison_rows (X : Externals) (args : Args) (st : Pass) (real : gmap Z bytes) :
  compare args = true →
  snd (replay X args (enum_log_entries X (log_path args)) initial_pass) = Done st →
  registers (wanted_pcrs args) →
  read_current_pcrs X (wanted_pcrs args) = Return real →
  Forall (λ idx, is_Some (real !! idx)) (wanted_pcrs args) →
  fst (main X args)
  = fst (replay X args (enum_log_entries X (log_path args)) initial_pass)
    ++ Stdout CompareTitle :: Stdout CompareHeader
       :: map (λ idx, Stdout (CompareRow idx (default [] (real !! idx))
                                (default [] (this_pcrs st !! idx))
                                (bool_decide (real !! idx = this_pcrs st !! idx))))
            (wanted_pcrs args).
Proof.
  intros Hc Hrun Hreg Hread Hreal.
  destruct (replay_populated _ _ _ _ Hrun) as [Hpt _].
  rewrite (proj2 (main_after_replay X args st Hrun)).
  rewrite (proj2 (report_with_compare X args st Hc)). f_equal.
  unfold compare_live. rewrite Hread.
  repeat (rewrite fst_bind; cbn [print emit call ret fst snd app]).
  rewrite (compare_rows_trace real (this_pcrs st) _ 0 Hreal (registers_lookup _ _ Hpt Hreg)).
  rewrite (compare_rows real (this_pcrs st) _ 0 Hreal (registers_lookup _ _ Hpt Hreg)).
  cbn [exit fst]. rewrite app_nil_r. reflexivity.
Qed.

Lemma X14_comparison_rows_witness :
  fst (main
         {| enum_log_entries := fun _ => [plain_event 0 (digest_of x11)];
            parse_efi_bsa_event := fun _ => Return {| device_path_vec := [] |};
            device_path_to_unix_path := fun _ => Return None;
            hash_pecoff := fun _ _ => Return (digest_of x33);
            loader_get_next_cmdline := fun _ => Raise FileNotFoundError;
            loader_encode_pcr8 := fun c => Return (ascii_bytes c);
            decode_utf16le := fun _ => Return EmptyString;
            read_current_pcrs := fun _ => Return init_empty_pcrs;
            read_current_pcr := fun _ => Return (digest_of x00) |}
         (options (Some [17; 0]) None true false))
  = [Stdout CompareTitle; Stdout CompareHeader;
     Stdout (CompareRow 17 (repeat xff 20) (repeat xff 20) true);
     Stdout (CompareRow 0 (repeat x00 20) (SHA1.digest (repeat x00 20 ++ digest_of x11)) false)].
Proof.
  etransitivity.
  - eapply (X14_comparison_rows _ (options (Some [17; 0]) None true false) _ init_empty_pcrs).
    + reflexivity.
    + vm_compute. reflexivity.
    + repeat constructor; lia.
    + reflexivity.
    + repeat constructor; vm_compute; eauto.
  - vm_compute. reflexivity.
Defined.

Lemma final_table_trace args st :
  Forall (λ idx, is_Some (this_pcrs st !! idx)) (wanted_pcrs args) →
  Forall (λ idx, is_Some (next_pcrs st !! idx)) (wanted_pcrs args) →
  fst (final_table args st)
  = Stdout FinalTitle :: Stdout FinalHeader
    :: map (λ idx, Stdout (FinalRow idx (default [] (this_pcrs st !! idx))
                             (default [] (next_pcrs st !! idx))))
         (wanted_pcrs args).
Proof.
  intros Ht Hn. unfold final_table.
  repeat (rewrite fst_bind; cbn [print emit fst snd app]). do 2 f_equal.
  induction (wanted_pcrs args) as [|idx l IH]; [reflexivity|].
  apply Forall_cons in Ht as [[t Ht] Ht']. apply Forall_cons in Hn as [[n Hn] Hn'].
  cbn [for_ map]. rewrite fst_bind. unfold getitem at 1 2 3 4. rewrite Ht, Hn.
  cbn [bind ret print emit fst snd app default]. rewrite (IH Ht' Hn'). reflexivity.
Qed.

Lemma final_table_only_table args st :
  emits_only (λ o, is_table_line o = true) (final_table args st).
Proof. unfold final_table, print. repeat emits_only_step; reflexivity. Qed.

(** X15. Without [--compare] and with the requested indices registers: the
    final table (title, header, one row of current and predicted value for
    every requested index, in the order requested) is printed exactly when
    [--verbose] is given or no output path is, and it is printed right after
    the pass, before the tally is looked at, so also by a run that then ends
    with the fatal-errors exit. With an output path and without [--verbose]
    no line of the table is printed. *)
Theorem X15_final_table (X : Externals) (args : Args) (st : Pass) :
  compare args = false →
  snd (replay X args (enum_log_entries X (log_path args)) initial_pass) = Done st →
  registers (wanted_pcrs args) →
  (verbose args = true ∨ truthy (output args) = false →
   ∃ rest,
     fst (main X args)
     = fst (replay X args (enum_log_entries X (log_path args)) initial_pass)
       ++ (Stdout FinalTitle :: Stdout FinalHeader
           :: map (λ idx, Stdout (FinalRow idx (default [] (this_pcrs st !! idx))
                                    (default [] (next_pcrs st !! idx))))
                (wanted_pcrs args))
       ++ rest
     ∧ Forall (λ o, is_table_line o = false) rest)
  ∧ (verbose args = false → truthy (output args) = true →
     emits_only (λ o, is_table_line o = false) (main X args)).
Proof.
  intros Hc Hrun Hreg.
  destruct (replay_populated _ _ _ _ Hrun) as [Hpt Hpn].
  pose proof (registers_lookup _ _ Hpt Hreg) as Ht.
  pose proof (registers_lookup _ _ Hpn Hreg) as Hn.
  destruct (main_after_replay X args st Hrun) as [_ Hfst].
  assert (Htail :
            emits_only (λ o, is_table_line o = false)
              (do_ (if bool_decide (errors st ≠ 0)
                    then do_ print_stderr FatalErrors; exit 1 else ret tt);
               match output args with
               | Some path => if truthy (output args) then write_output args path st else ret tt
               | None => ret tt
               end)).
  { unfold write_output, print_stderr. repeat emits_only_step; reflexivity. }
  split.
  - intros Hshow. eexists. rewrite Hfst. split.
    + f_equal. unfold report. rewrite Hc.
      rewrite fst_bind. cbn [ret fst snd app]. rewrite fst_bind.
      assert (Hb : verbose args || negb (truthy (output args)) = true).
      { destruct Hshow as [->| ->]; [reflexivity|apply orb_true_r]. }
      rewrite Hb. cbn [when]. rewrite (final_table_trace args st Ht Hn).
      rewrite (final_table_returns args st Ht Hn). reflexivity.
    + exact Htail.
  - intros Hverb Htr. unfold emits_only. rewrite Hfst. apply Forall_app. split.
    + eapply Forall_impl; [apply (replay_no_result_output X args)|].
      intros o Ho. destruct o as [| [] | | |]; try reflexivity; discriminate Ho.
    + assert (Hb : verbose args || negb (truthy (output args)) = false)
        by (rewrite Hverb, Htr; reflexivity).
      unfold report. rewrite Hc, Hb. cbn [when].
      rewrite fst_bind. cbn [ret fst snd app]. rewrite fst_bind. cbn [ret fst snd app].
      exact Htail.
Qed.

Lemma X15_final_table_witness :
  ∃ rest,
    fst (main (machine [boot_event 4 (digest_of x11)]
                 (Raise (OtherException "no volume")) (Raise FileNotFoundError))
           (options (Some [4]) (Some "pcrs.bin"%string) false true))
    = fst (replay (machine [boot_event 4 (digest_of x11)]
                     (Raise (OtherException "no volume")) (Raise FileNotFoundError))
             (options (Some [4]) (Some "pcrs.bin"%string) false true)
             [boot_event 4 (digest_of x11)] initial_pass)
      ++ (Stdout FinalTitle :: Stdout FinalHeader
          :: map (λ idx, Stdout (FinalRow idx
                                   (default [] (this_pcrs (set_errors 1 initial_pass) !! idx))
                                   (default [] (next_pcrs (set_errors 1 initial_pass) !! idx))))
               [4])
      ++ rest
    ∧ Forall (λ o, is_table_line o = false) rest.
Proof.
  apply (proj1 (X15_final_table
                  (machine [boot_event 4 (digest_of x11)]
                     (Raise (OtherException "no volume")) (Raise FileNotFoundError))
                  (options (Some [4]) (Some "pcrs.bin"%string) false true)
                  (set_errors 1 initial_pass) eq_refl
                  ltac:(vm_compute; reflexivity)
                  ltac:(repeat constructor; lia))).
  left. reflexivity.
Defined.

Lemma process_event_silent X args st e :
  verbose args = false →
  emits_only (λ o, is_unconditional_line o = true) (process_event X args st e).
Proof.
  intros Hverb. unfold_event. unfold verbose_pcr. rewrite Hverb. cbn [andb when].
  repeat emits_only_step; reflexivity.
Qed.

(** X16. Without [--verbose] the pass prints no trace of the entries: its
    only lines are the two skip notices of lines 47 and 51, the text of an
    exception of the device path resolver, and the notice before the exit of
    line 83. *)
Theorem X16_pass_without_verbose (X : Externals) (args : Args) (events : list Event)
    (st : Pass) :
  verbose args = false →
  emits_only (λ o, is_unconditional_line o = true) (replay X args events st).
Proof.
  intros Hverb. apply emits_only_for_each. intros st' e.
  exact (process_event_silent X args st' e Hverb).
Qed.

Lemma X16_pass_without_verbose_witness :
  emits_only (λ o, is_unconditional_line o = true)
    (replay (machine [] (Return (Some "/boot/EFI/loader.efi"%string)) (Return "quiet"%string))
       (options (Some [4; 8]) None false false)
       [boot_event 4 (digest_of x22); ipl_event 8 (digest_of x11)] initial_pass).
Proof.
  apply (X16_pass_without_verbose
           (machine [] (Return (Some "/boot/EFI/loader.efi"%string)) (Return "quiet"%string))
           (options (Some [4; 8]) None false false)).
  reflexivity.
Defined.

(** ** The exit status *)

Section Exits.

Context (Q : Z → Prop).












End Exits.





(** ** The earlier script *)

Ltac unfold_legacy_event := unfold Lib.process_event, Lib.extend_value_of, print.

Lemma legacy_process_event_transition X quiet st e :
  returns (Lib.process_event X quiet st e)
    (λ st', ∃ L d, pcr_extend_value e = Some L
                   ∧ extended (Lib.this_pcrs st) (pcr_idx e) L (Lib.this_pcrs st')
                   ∧ extended (Lib.next_pcrs st) (pcr_idx e) d (Lib.next_pcrs st')).
Proof.
  unfold_legacy_event. repeat returns_step.
  all: simpl in *.
  all: eexists _, _; split; [reflexivity|];
    split; eexists; (split; [eassumption|reflexivity]).
Qed.

Lemma legacy_initial_this : Lib.this_pcrs Lib.initial_banks = init_empty_pcrs.
Proof.
  apply map_eq. intros i. rewrite legacy_initial_lookup, init_empty_pcrs_lookup. reflexivity.
Qed.

Lemma legacy_replay_populated X quiet events st :
  snd (Lib.replay X quiet events Lib.initial_banks) = Done st →
  populated (Lib.this_pcrs st) ∧ populated (Lib.next_pcrs st).
Proof.
  revert st.
  apply (returns_for_each _
           (λ st, populated (Lib.this_pcrs st) ∧ populated (Lib.next_pcrs st))).
  - intros st e [Ht Hn]. eapply returns_weaken; [apply legacy_process_event_transition|].
    intros st' (L & d & _ & H1 & H2).
    split; [exact (populated_extended _ _ _ _ Ht H1)|exact (populated_extended _ _ _ _ Hn H2)].
  - change (Lib.next_pcrs Lib.initial_banks) with (Lib.this_pcrs Lib.initial_banks).
    rewrite legacy_initial_this. split; exact populated_init.
Qed.

Lemma legacy_replay_untouched X quiet i events :
  ∀ st st',
    snd (Lib.replay X quiet events st) = Done st' →
    Forall (λ e, pcr_idx e ≠ i) events →
    Lib.this_pcrs st' !! i = Lib.this_pcrs st !! i
    ∧ Lib.next_pcrs st' !! i = Lib.next_pcrs st !! i.
Proof.
  induction events as [|e events IH]; intros st st' Hrun Hne.
  - injection Hrun as <-. split; reflexivity.
  - apply Forall_cons in Hne as [Hi Hne]. unfold Lib.replay in Hrun. cbn [for_each] in Hrun.
    apply bind_Done_inv in Hrun as (st1 & Hstep & Hrest).
    destruct (IH st1 st' Hrest Hne) as [-> ->].
    destruct (legacy_process_event_transition X quiet st e st1 Hstep)
      as (L & d & _ & (v & _ & ->) & (n & _ & ->)).
    rewrite !lookup_insert_ne by exact Hi. split; reflexivity.
Qed.

(** X18. The earlier script has no filter: an entry without an extend value
    ends it with KeyError for the key [pcr_extend_value], where [main] prints
    a notice and goes on with the state unchanged. *)
Theorem X18_legacy_missing_extend_value (X : Externals) (quiet : bool) (args : Args)
    (st : Lib.Banks) (st' : Pass) (e : Event) :
  pcr_extend_value e = None →
  snd (Lib.process_event X quiet st e) = Raised (KeyError (StrKey "pcr_extend_value"))
  ∧ snd (process_event X args st' e) = Done st'.
Proof.
  intros Hnone. split.
  - unfold Lib.process_event, Lib.extend_value_of. rewrite Hnone.
    destruct quiet; reflexivity.
  - apply process_event_skipped. left. exact Hnone.
Qed.

Lemma X18_legacy_missing_extend_value_witness :
  snd (Lib.process_event (machine [] (Raise FileNotFoundError) (Raise FileNotFoundError)) false
         Lib.initial_banks
         {| pcr_idx := 0; event_type := OtherEvent 4; event_data := [];
            pcr_extend_value := None |})
  = Raised (KeyError (StrKey "pcr_extend_value"))
  ∧ snd (process_event (machine [] (Raise FileNotFoundError) (Raise FileNotFoundError))
           (options None None false false) initial_pass
           {| pcr_idx := 0; event_type := OtherEvent 4; event_data := [];
              pcr_extend_value := None |})
    = Done initial_pass.
Proof.
  apply (X18_legacy_missing_extend_value
           (machine [] (Raise FileNotFoundError) (Raise FileNotFoundError)) false
           (options None None false false) Lib.initial_banks initial_pass).
  reflexivity.
Defined.

(** X19. The earlier script folds NO_ACTION entries: a NO_ACTION entry with an
    extend value on a register extends both of its banks with that value,
    while [main], in the same banks, leaves them as they are. *)
Theorem X19_legacy_folds_no_action (X : Externals) (quiet : bool) (args : Args)
    (st : Lib.Banks) (st' : Pass) (e : Event) (d c n : bytes) :
  event_type e = NO_ACTION → pcr_extend_value e = Some d →
  Lib.this_pcrs st = this_pcrs st' → Lib.next_pcrs st = next_pcrs st' →
  this_pcrs st' !! pcr_idx e = Some c → next_pcrs st' !! pcr_idx e = Some n →
  snd (Lib.process_event X quiet st e)
  = Done {| Lib.this_pcrs := <[pcr_idx e := SHA1.digest (c ++ d)]> (this_pcrs st');
            Lib.next_pcrs := <[pcr_idx e := SHA1.digest (n ++ d)]> (next_pcrs st') |}
  ∧ snd (process_event X args st' e) = Done st'.
Proof.
  intros Ht Hd Hthis Hnext Hc Hn. split.
  - rewrite <- Hthis, <- Hnext in *.
    apply legacy_process_event_plain; [rewrite Ht; discriminate|assumption..].
  - apply (process_event_no_action X args st' e Ht). right. split; eauto.
Qed.

Lemma X19_legacy_folds_no_action_witness :
  snd (Lib.process_event (machine [] (Raise FileNotFoundError) (Raise FileNotFoundError)) false
         Lib.initial_banks (no_action_event 0 (digest_of x11)))
  = Done {| Lib.this_pcrs :=
              <[0 := SHA1.digest (repeat x00 20 ++ digest_of x11)]> (this_pcrs initial_pass);
            Lib.next_pcrs :=
              <[0 := SHA1.digest (repeat x00 20 ++ digest_of x11)]> (next_pcrs initial_pass) |}
  ∧ snd (process_event (machine [] (Raise FileNotFoundError) (Raise FileNotFoundError))
           (options None None false true) initial_pass (no_action_event 0 (digest_of x11)))
    = Done initial_pass.
Proof.
  apply (X19_legacy_folds_no_action
           (machine [] (Raise FileNotFoundError) (Raise FileNotFoundError)) false
           (options None None false true) Lib.initial_banks initial_pass
           (no_action_event 0 (digest_of x11)) (digest_of x11) (repeat x00 20) (repeat x00 20));
    reflexivity.
Defined.

(** X20. In the earlier script nothing around a boot application is guarded:
    whatever the resolver returns is hashed, also no path or an empty one, the
    current bank folds the logged value and the predicted bank the file hash;
    and an exception of the resolver ends the script, where [main] catches it
    and, with [--verbose], goes on. *)
Theorem X20_legacy_boot_application (X : Externals) (quiet : bool) (st : Lib.Banks)
    (e : Event) (L : bytes) (ed : EfiBsaEvent) :
  event_type e = EFI_BOOT_SERVICES_APPLICATION →
  pcr_extend_value e = Some L →
  parse_efi_bsa_event X (event_data e) = Return ed →
  (∀ p P c n,
     device_path_to_unix_path X (device_path_vec ed) = Return p →
     hash_pecoff X p "sha1" = Return P →
     Lib.this_pcrs st !! pcr_idx e = Some c → Lib.next_pcrs st !! pcr_idx e = Some n →
     snd (Lib.process_event X quiet st e)
     = Done {| Lib.this_pcrs := <[pcr_idx e := SHA1.digest (c ++ L)]> (Lib.this_pcrs st);
               Lib.next_pcrs := <[pcr_idx e := SHA1.digest (n ++ P)]> (Lib.next_pcrs st) |})
  ∧ (∀ ex,
       device_path_to_unix_path X (device_path_vec ed) = Raise ex →
       snd (Lib.process_event X quiet st e) = Raised ex).
Proof.
  intros Ht HL Hed. split.
  - intros p P c n Hp HP Hc Hn. unfold Lib.process_event, Lib.extend_value_of.
    rewrite HL, Ht, (bool_decide_eq_true_2 _ (eq_refl EFI_BOOT_SERVICES_APPLICATION)), Hed.
    cbn [call bind ret]. rewrite Hp. cbn [call bind ret]. rewrite HP.
    destruct quiet; simpl; unfold getitem; simpl; rewrite Hc; simpl; rewrite ?Hc, Hn; simpl;
      rewrite ?lookup_insert_eq; reflexivity.
  - intros ex Hp. unfold Lib.process_event, Lib.extend_value_of.
    rewrite HL, Ht, (bool_decide_eq_true_2 _ (eq_refl EFI_BOOT_SERVICES_APPLICATION)), Hed.
    cbn [call bind ret]. rewrite Hp. destruct quiet; reflexivity.
Qed.

Lemma X20_legacy_boot_application_witness :
  snd (Lib.process_event (machine [] (Return None) (Raise FileNotFoundError)) true
         Lib.initial_banks (boot_event 4 (digest_of x11)))
  = Done {| Lib.this_pcrs :=
              <[4 := SHA1.digest (repeat x00 20 ++ digest_of x11)]>
                (Lib.this_pcrs Lib.initial_banks);
            Lib.next_pcrs :=
              <[4 := SHA1.digest (repeat x00 20 ++ digest_of x33)]>
                (Lib.next_pcrs Lib.initial_banks) |}.
Proof.
  apply (proj1 (X20_legacy_boot_application (machine [] (Return None) (Raise FileNotFoundError))
                  true Lib.initial_banks (boot_event 4 (digest_of x11)) (digest_of x11)
                  {| device_path_vec := [] |} eq_refl eq_refl eq_refl)
           None (digest_of x33) (repeat x00 20) (repeat x00 20));
    reflexivity.
Defined.

Lemma legacy_patch_pcr8_zero X st live :
  Lib.this_pcrs st !! 8 = Some (bytes_times x00 Lib.PCR_SIZE) →
  read_current_pcr X 8 = Return live →
  Lib.patch_pcr8 X st
  = ([], Done {| Lib.this_pcrs := <[8 := live]> (Lib.this_pcrs st);
                 Lib.next_pcrs := <[8 := live]> (Lib.next_pcrs st) |}).
Proof.
  intros H8 Hlive. unfold Lib.patch_pcr8, getitem. rewrite H8. cbn [bind ret].
  rewrite (bool_decide_eq_true_2 _ (eq_refl (bytes_times x00 Lib.PCR_SIZE))), Hlive.
  cbn [call bind ret Lib.this_pcrs Lib.next_pcrs]. rewrite lookup_insert_eq. reflexivity.
Qed.

(** X21. The patch of lines 55-58 looks at the current value of register 8
    only: when it is not 20 zero bytes the banks are left as they are and the
    TPM is not read; when it is, both banks get the live value of register 8,
    also the predicted one. So after a log without an entry on register 8 both
    banks hold the live value there, and an exception of the live read ends
    the script. *)
Theorem X21_legacy_patch_of_register_8 (X : Externals) (quiet : bool) :
  (∀ st v,
     Lib.this_pcrs st !! 8 = Some v → v ≠ repeat x00 20 →
     Lib.patch_pcr8 X st = ([], Done st))
  ∧ (∀ events st live,
       Forall (λ e, pcr_idx e ≠ 8) events →
       snd (Lib.replay X quiet events Lib.initial_banks) = Done st →
       read_current_pcr X 8 = Return live →
       Lib.patch_pcr8 X st
       = ([], Done {| Lib.this_pcrs := <[8 := live]> (Lib.this_pcrs st);
                      Lib.next_pcrs := <[8 := live]> (Lib.next_pcrs st) |}))
  ∧ (∀ events st ex,
       Forall (λ e, pcr_idx e ≠ 8) events →
       snd (Lib.replay X quiet events Lib.initial_banks) = Done st →
       read_current_pcr X 8 = Raise ex →
       snd (Lib.patch_pcr8 X st) = Raised ex).
Proof.
  assert (H8 : ∀ events st,
             Forall (λ e, pcr_idx e ≠ 8) events →
             snd (Lib.replay X quiet events Lib.initial_banks) = Done st →
             Lib.this_pcrs st !! 8 = Some (bytes_times x00 Lib.PCR_SIZE)).
  { intros events st Hne Hrun.
    rewrite (proj1 (legacy_replay_untouched X quiet 8 events _ st Hrun Hne)).
    rewrite legacy_initial_lookup. reflexivity. }
  split; [|split].
  - intros st v Hv Hne. unfold Lib.patch_pcr8, getitem. rewrite Hv. cbn [bind ret].
    rewrite (bool_decide_eq_false_2 (v = bytes_times x00 Lib.PCR_SIZE)) by exact Hne.
    reflexivity.
  - intros events st live Hne Hrun Hlive.
    exact (legacy_patch_pcr8_zero X st live (H8 events st Hne Hrun) Hlive).
  - intros events st ex Hne Hrun Hlive.
    unfold Lib.patch_pcr8, getitem. rewrite (H8 events st Hne Hrun). cbn [bind ret].
    rewrite (bool_decide_eq_true_2 _ (eq_refl (bytes_times x00 Lib.PCR_SIZE))), Hlive.
    reflexivity.
Qed.

Lemma X21_legacy_patch_of_register_8_witness :
  ∃ st,
    snd (Lib.replay
           {| enum_log_entries := fun _ => [];
              parse_efi_bsa_event := fun _ => Return {| device_path_vec := [] |};
              device_path_to_unix_path := fun _ => Return None;
              hash_pecoff := fun _ _ => Return (digest_of x33);
              loader_get_next_cmdline := fun _ => Raise FileNotFoundError;
              loader_encode_pcr8 := fun c => Return (ascii_bytes c);
              decode_utf16le := fun _ => Return EmptyString;
              read_current_pcrs := fun _ => Return init_empty_pcrs;
              read_current_pcr := fun _ => Return (digest_of x44) |}
           true [plain_event 0 (digest_of x11)] Lib.initial_banks) = Done st
    ∧ Lib.patch_pcr8
        {| enum_log_entries := fun _ => [];
           parse_efi_bsa_event := fun _ => Return {| device_path_vec := [] |};
           device_path_to_unix_path := fun _ => Return None;
           hash_pecoff := fun _ _ => Return (digest_of x33);
           loader_get_next_cmdline := fun _ => Raise FileNotFoundError;
           loader_encode_pcr8 := fun c => Return (ascii_bytes c);
           decode_utf16le := fun _ => Return EmptyString;
           read_current_pcrs := fun _ => Return init_empty_pcrs;
           read_current_pcr := fun _ => Return (digest_of x44) |} st
      = ([], Done {| Lib.this_pcrs := <[8 := digest_of x44]> (Lib.this_pcrs st);
                     Lib.next_pcrs := <[8 := digest_of x44]> (Lib.next_pcrs st) |}).
Proof.
  eexists. split; [vm_compute; reflexivity|].
  eapply (proj1 (proj2 (X21_legacy_patch_of_register_8 _ true))
            [plain_event 0 (digest_of x11)]).
  - repeat constructor; discriminate.
  - vm_compute. reflexivity.
  - reflexivity.
Defined.

Lemma legacy_process_event_quiet X st e :
  emits_only (λ _, False) (Lib.process_event X true st e).
Proof.
  unfold_legacy_event. cbn [negb when]. repeat emits_only_step.
Qed.

Lemma legacy_patch_pcr8_silent X st : emits_only (λ _, False) (Lib.patch_pcr8 X st).
Proof. unfold Lib.patch_pcr8. repeat emits_only_step. Qed.

Lemma emits_nothing {A} (m : M A) : emits_only (λ _, False) m → fst m = [].
Proof. unfold emits_only. destruct (fst m); [reflexivity|]. intros H. inversion H. contradiction. Qed.

Lemma legacy_patch_pcr8_populated X st :
  populated (Lib.this_pcrs st) ∧ populated (Lib.next_pcrs st) →
  returns (Lib.patch_pcr8 X st)
    (λ st', populated (Lib.this_pcrs st') ∧ populated (Lib.next_pcrs st')).
Proof.
  intros [Ht Hn]. unfold Lib.patch_pcr8. repeat returns_step; [|split; assumption].
  simpl. split; intros i; rewrite lookup_insert_is_Some.
  - rewrite <- (Ht i). split; [intros [<-|[_ Hs]]; [apply Ht; lia|exact Hs]|].
    intros Hs. destruct (decide (8 = i)); [left|right]; tauto.
  - rewrite <- (Hn i). split; [intros [<-|[_ Hs]]; [apply Hn; lia|exact Hs]|].
    intros Hs. destruct (decide (8 = i)); [left|right]; tauto.
Qed.

(** X22. With the global [quiet] set, the earlier script prints nothing of
    its own: whenever it comes to its end, all it has done is to open
    [/dev/stdout] and write there the predicted digests of the 24 registers in
    ascending order 0..23, register 8 as the patch left it. *)
Theorem X22_legacy_quiet_output (X : Externals) (st st' : Lib.Banks) :
  snd (Lib.replay X true (enum_log_entries X None) Lib.initial_banks) = Done st →
  snd (Lib.patch_pcr8 X st) = Done st' →
  Lib.main X true
  = (OpenWrite "/dev/stdout"
       :: map (λ idx, FileWrite (default [] (Lib.next_pcrs st' !! idx))) (range 24),
     Done tt)
  ∧ written (fst (Lib.main X true)) = digests_of (Lib.next_pcrs st') (ascending (range 24)).
Proof.
  intros Hrun Hpatch.
  destruct (legacy_patch_pcr8_populated X st (legacy_replay_populated X true _ st Hrun)
              st' Hpatch) as [_ Hpn].
  assert (Hreg : registers (range 24)).
  { unfold registers. apply Forall_forall. intros i Hi. apply elem_of_range in Hi. exact Hi. }
  assert (Hmain : Lib.main X true
                  = (OpenWrite "/dev/stdout"
                       :: map (λ idx, FileWrite (default [] (Lib.next_pcrs st' !! idx))) (range 24),
                     Done tt)).
  { assert (Hr : Lib.replay X true (enum_log_entries X None) Lib.initial_banks = ([], Done st)).
    { rewrite (surjective_pairing (Lib.replay X true _ _)), Hrun. f_equal.
      apply emits_nothing. unfold Lib.replay. apply emits_only_for_each.
      intros s x. apply legacy_process_event_quiet. }
    assert (Hp : Lib.patch_pcr8 X st = ([], Done st')).
    { rewrite (surjective_pairing (Lib.patch_pcr8 X st)), Hpatch. f_equal.
      apply emits_nothing, legacy_patch_pcr8_silent. }
    unfold Lib.main. rewrite Hr. cbn [bind]. rewrite Hp. cbn [bind].
    unfold Lib.report.
    rewrite (write_rows (Lib.next_pcrs st') (range Lib.NUM_PCRS) (registers_lookup _ _ Hpn Hreg)).
    reflexivity. }
  split; [exact Hmain|]. rewrite Hmain. cbn [fst written].
  change (range 24) with (range NUM_PCRS).
  rewrite (ascending_sorted _ range_sorted). apply written_rows.
Qed.

Lemma X22_legacy_quiet_output_witness :
  hex (written (fst (Lib.main (machine [plain_event 0 (digest_of x11)] (Raise FileNotFoundError)
                                 (Raise FileNotFoundError)) true)))
  = hex (digests_of
           (<[0 := SHA1.digest (repeat x00 20 ++ digest_of x11)]> init_empty_pcrs)
           (range 24)).
Proof.
  destruct (X22_legacy_quiet_output
              (machine [plain_event 0 (digest_of x11)] (Raise FileNotFoundError)
                 (Raise FileNotFoundError))
              {| Lib.this_pcrs := <[0 := SHA1.digest (repeat x00 20 ++ digest_of x11)]> init_empty_pcrs;
                 Lib.next_pcrs := <[0 := SHA1.digest (repeat x00 20 ++ digest_of x11)]> init_empty_pcrs |}
              {| Lib.this_pcrs :=
                   <[8 := digest_of x00]>
                     (<[0 := SHA1.digest (repeat x00 20 ++ digest_of x11)]> init_empty_pcrs);
                 Lib.next_pcrs :=
                   <[8 := digest_of x00]>
                     (<[0 := SHA1.digest (repeat x00 20 ++ digest_of x11)]> init_empty_pcrs) |})
    as [_ Hw].
  - vm_compute. reflexivity.
  - vm_compute. reflexivity.
  - rewrite Hw. vm_compute. reflexivity.
Defined.

Lemma legacy_replay_ordinary X quiet args events :
  Forall (λ e, ordinary args e = true) events →
  ∀ (st : Pass) (lst : Lib.Banks),
    populated (this_pcrs st) → populated (next_pcrs st) →
    Lib.this_pcrs lst = this_pcrs st → Lib.next_pcrs lst = next_pcrs st →
    ∃ st' lst',
      snd (replay X args events st) = Done st'
      ∧ snd (Lib.replay X quiet events lst) = Done lst'
      ∧ Lib.this_pcrs lst' = this_pcrs st' ∧ Lib.next_pcrs lst' = next_pcrs st'.
Proof.
  induction 1 as [|e events He _ IH]; intros st lst Ht Hn Hthis Hnext.
  - exists st, lst. repeat split; assumption.
  - apply ordinary_spec in He as (Hp & (d & Hd) & Hi).
    destruct (proj2 (Ht _) Hi) as [c Hc]. destruct (proj2 (Hn _) Hi) as [n Hn'].
    assert (Hv : pcr_idx e ≠ VIRTUAL_PCR) by (unfold VIRTUAL_PCR; lia).
    pose proof (process_event_plain X args st e d c n Hp Hd Hv Hc Hn') as Hstep.
    assert (Hbsa : event_type e ≠ EFI_BOOT_SERVICES_APPLICATION).
    { apply plain_measurement_spec in Hp as (Hb & _). exact (bool_decide_eq_false_1 _ Hb). }
    pose proof (legacy_process_event_plain X quiet lst e d c n Hbsa Hd) as Hlstep.
    rewrite Hthis, Hnext in Hlstep. specialize (Hlstep Hc Hn').
    destruct (IH {| this_pcrs := <[pcr_idx e := SHA1.digest (c ++ d)]> (this_pcrs st);
                    next_pcrs := <[pcr_idx e := SHA1.digest (n ++ d)]> (next_pcrs st);
                    last_efi_binary := last_efi_binary st; errors := errors st |}
                {| Lib.this_pcrs := <[pcr_idx e := SHA1.digest (c ++ d)]> (this_pcrs st);
                   Lib.next_pcrs := <[pcr_idx e := SHA1.digest (n ++ d)]> (next_pcrs st) |})
      as (st' & lst' & Hrun & Hlrun & Hbanks).
    { apply (populated_extended (this_pcrs st) (pcr_idx e) d); [exact Ht|]. exists c. auto. }
    { apply (populated_extended (next_pcrs st) (pcr_idx e) d); [exact Hn|]. exists n. auto. }
    { reflexivity. }
    { reflexivity. }
    exists st', lst'. unfold replay, Lib.replay. cbn [for_each].
    rewrite !snd_bind, Hstep, Hlstep. split; [exact Hrun|]. split; [exact Hlrun|exact Hbanks].
Qed.

(** X23. On a log of ordinary measurements [main] and the earlier script
    compute the same two banks. *)
Theorem X23_programs_agree_on_ordinary_logs (X : Externals) (quiet : bool) (args : Args)
    (events : list Event) :
  Forall (λ e, ordinary args e = true) events →
  ∃ st lst,
    snd (replay X args events initial_pass) = Done st
    ∧ snd (Lib.replay X quiet events Lib.initial_banks) = Done lst
    ∧ Lib.this_pcrs lst = this_pcrs st ∧ Lib.next_pcrs lst = next_pcrs st.
Proof.
  intros Hord.
  exact (legacy_replay_ordinary X quiet args events Hord initial_pass Lib.initial_banks
           populated_init populated_init legacy_initial_this legacy_initial_this).
Qed.

Lemma X23_programs_agree_on_ordinary_logs_witness :
  ∃ st lst,
    snd (replay (machine [] (Raise FileNotFoundError) (Raise FileNotFoundError))
           (options (Some [8]) None false true)
           [plain_event 0 (digest_of x11); ipl_event 9 (digest_of x33)] initial_pass) = Done st
    ∧ snd (Lib.replay (machine [] (Raise FileNotFoundError) (Raise FileNotFoundError)) false
             [plain_event 0 (digest_of x11); ipl_event 9 (digest_of x33)] Lib.initial_banks)
      = Done lst
    ∧ Lib.this_pcrs lst = this_pcrs st ∧ Lib.next_pcrs lst = next_pcrs st.
Proof.
  apply (X23_programs_agree_on_ordinary_logs
           (machine [] (Raise FileNotFoundError) (Raise FileNotFoundError)) false
           (options (Some [8]) None false true)).
  repeat constructor.
Defined.

(** ** The options and the computed state *)

Lemma returns_try_except_caught {A} (body : M A) (catches : exn → bool)
    (handler : exn → M A) (Q : A → Prop) :
  returns body Q →
  (∀ e, snd body = Raised e → catches e = true → returns (handler e) Q) →
  returns (try_except body catches handler) Q.
Proof.
  unfold returns, try_except. intros Hb Hh a.
  destruct body as [t [x|e|s]]; simpl in *; [apply Hb| |apply Hb].
  destruct (catches e) eqn:Hc; [|discriminate].
  specialize (Hh e eq_refl Hc a). destruct (handler e). simpl in *. exact Hh.
Qed.

Ltac returns_step_caught :=
  cbv beta;
  first
    [ apply returns_raise | apply returns_exit
    | apply returns_bind
    | apply returns_ret
    | apply returns_emit
    | apply returns_when
    | apply returns_call; intros ? ?
    | apply returns_getitem; intros ? ?
    | apply returns_try_except_caught; [|intros ? ? ?]
    | match goal with
      | |- returns (if ?b then _ else _) _ => destruct b eqn:?
      | |- returns (match ?x with _ => _ end) _ => destruct x eqn:?
      end ].

Ltac use_facts :=
  repeat match goal with
    | E : bool_decide _ = _ |- _ => rewrite E
    | E : _ && _ = _ |- _ => rewrite E
    | E : truthy _ = _ |- _ => rewrite E
    | E : pcr_extend_value _ = _ |- _ => rewrite E
    | E : _ = Return _ |- _ => rewrite E
    | E : _ = Raise _ |- _ => rewrite E
    | E : _ !! _ = Some _ |- _ => rewrite E
    end.

Ltac why_raised :=
  repeat match goal with
    | H : Done _ = Raised _ |- _ => discriminate H
    | H : SystemExit _ = Raised _ |- _ => discriminate H
    | H : Raised _ = Raised _ |- _ => injection H as H; try subst
    | H : snd _ = Raised _ |- _ =>
        match type of H with
        | context [call ?r] =>
            lazymatch r with
            | Return _ => fail
            | Raise _ => fail
            | _ => destruct r eqn:?
            end
        | context [if ?b then _ else _] =>
            lazymatch b with true => fail | false => fail | _ => destruct b eqn:? end
        end; cbn in H
    end.

Lemma process_event_state_after X args st e :
  (∀ bs, decode_utf16le X bs ≠ Raise FileNotFoundError) →
  returns (process_event X args st e) (λ st', st' = state_after X (wanted_pcrs args) st e).
Proof.
  intros Hdec. unfold_event. repeat returns_step_caught.
  all: unfold state_after, cmdline_value, extend_bank, extend_pcr_with_hash, hash_bytes.
  all: simpl in *.
  all: why_raised.
  all: repeat match goal with
         | H : is_FileNotFoundError ?x = true |- _ => destruct x; try discriminate H; clear H
         end.
  all: try (exfalso; eapply Hdec; eassumption).
  all: repeat (use_facts; simpl).
  all: try reflexivity.
  all: discriminate.
Qed.

Lemma replay_state_independent X a1 a2 events :
  wanted_pcrs a1 = wanted_pcrs a2 →
  (∀ bs, decode_utf16le X bs ≠ Raise FileNotFoundError) →
  ∀ st s1 s2,
    snd (replay X a1 events st) = Done s1 →
    snd (replay X a2 events st) = Done s2 →
    s1 = s2.
Proof.
  intros Hw Hdec. induction events as [|e events IH]; intros st s1 s2 H1 H2.
  - injection H1 as <-. injection H2 as <-. reflexivity.
  - unfold replay in H1, H2. cbn [for_each] in H1, H2.
    apply bind_Done_inv in H1 as (t1 & Hs1 & Hr1).
    apply bind_Done_inv in H2 as (t2 & Hs2 & Hr2).
    rewrite (process_event_state_after X a1 st e Hdec t1 Hs1) in Hr1.
    rewrite (process_event_state_after X a2 st e Hdec t2 Hs2) in Hr2.
    rewrite Hw in Hr1. exact (IH _ s1 s2 Hr1 Hr2).
Qed.

(** X24. The options enter the computed state through the requested indices
    only: two runs over the same log that request the same indices and both
    reach the end of the log end in the same state (banks, last EFI binary and
    tally), whatever their [--verbose], [--output], [--compare] and
    [--log-path]. The decoding of line 89 is taken never to raise
    FileNotFoundError. *)
Theorem X24_options_do_not_change_the_state (X : Externals) (a1 a2 : Args)
    (events : list Event) (s1 s2 : Pass) :
  wanted_pcrs a1 = wanted_pcrs a2 →
  (∀ bs, decode_utf16le X bs ≠ Raise FileNotFoundError) →
  snd (replay X a1 events initial_pass) = Done s1 →
  snd (replay X a2 events initial_pass) = Done s2 →
  s1 = s2.
Proof.
  intros Hw Hdec. exact (replay_state_independent X a1 a2 events Hw Hdec initial_pass s1 s2).
Qed.

Lemma X24_options_do_not_change_the_state_witness :
  ∃ s1 s2,
    snd (replay (machine [] (Return (Some "/boot/EFI/loader.efi"%string)) (Return "quiet"%string))
           (options (Some [4; 8]) None false true)
           [boot_event 4 (digest_of x22); ipl_event 8 (digest_of x11)] initial_pass) = Done s1
    ∧ snd (replay (machine [] (Return (Some "/boot/EFI/loader.efi"%string)) (Return "quiet"%string))
             (options (Some [4; 8]) (Some "pcrs.bin"%string) true false)
             [boot_event 4 (digest_of x22); ipl_event 8 (digest_of x11)] initial_pass) = Done s2
    ∧ s1 = s2.
Proof.
  eexists _, _. split; [vm_compute; reflexivity|]. split; [vm_compute; reflexivity|].
  apply (X24_options_do_not_change_the_state
           (machine [] (Return (Some "/boot/EFI/loader.efi"%string)) (Return "quiet"%string))
           (options (Some [4; 8]) None false true)
           (options (Some [4; 8]) (Some "pcrs.bin"%string) true false)
           [boot_event 4 (digest_of x22); ipl_event 8 (digest_of x11)]).
  - reflexivity.
  - intros bs. discriminate.
  - vm_compute. reflexivity.
  - vm_compute. reflexivity.
Defined.

